(** * gsqr: GraphSAGE embedding training script ([train_embedding.py])

    A shallow embedding of the training pipeline and the proofs of its
    specification: the random geometric graph generator, the feature
    scaler, the two-layer encoder, the contrastive loss, the negative
    sampler, the epoch loop and the top-level entry point.

    Conventions.
    - numpy's float64 scalars are Rocq's primitive binary64 floats;
    - the adjacency matrix only ever holds 0.0 and 1.0 and is kept as a
      matrix of integers 0 and 1;
    - the process-wide random generators are explicit inputs: the sampled
      positions, the stream of raw words behind [np.random.randint], the
      dropout masks;
    - torch, torch_geometric and scikit-learn are not part of the
      repository; what the script needs from them is either an interface
      the definitions are parametric in, or a model marked as such. *)

From Stdlib Require Import ZArith Floats Reals Lra Lia String.
From stdpp Require Import base tactics option list.

Set Warnings "-inexact-float,-register-all".

Local Open Scope nat_scope.

(** ** Matrices indexed as [a[i][j]] *)

Module Matrix.

Abbreviation matrix := (list (list Z)).

(** [np.zeros((n, m))] *)
Definition zeros (n m : nat) : matrix := replicate n (replicate m 0%Z).

(** [a[i][j]]; every index the script uses lies inside the matrix, where
    Python would raise [IndexError] this reads 0. *)
Definition get2 (a : matrix) (i j : nat) : Z :=
  default 0%Z (a !! i ≫= (.!! j)).

(** [a[i][j] = v], in place. *)
Definition set2 (a : matrix) (i j : nat) (v : Z) : matrix :=
  alter (<[j := v]>) i a.

Definition shape (n : nat) (a : matrix) : Prop :=
  length a = n ∧ Forall (λ row, length row = n) a.

Lemma get2_zeros n m i j : get2 (zeros n m) i j = 0%Z.
Proof.
  unfold get2, zeros.
  destruct (decide (i < n)) as [Hi|Hi].
  - rewrite lookup_replicate_2 by done. simpl.
    destruct (decide (j < m)) as [Hj|Hj].
    + by rewrite lookup_replicate_2.
    + by rewrite (proj1 (lookup_replicate_None _ _ _)) by lia.
  - by rewrite (proj1 (lookup_replicate_None _ _ _)) by lia.
Qed.

Lemma shape_zeros n : shape n (zeros n n).
Proof.
  split; [apply length_replicate|].
  apply Forall_replicate, length_replicate.
Qed.

Lemma shape_set2 n a i j v : shape n a → shape n (set2 a i j v).
Proof.
  intros [Hlen Hrows]. unfold set2. split; [by rewrite length_alter|].
  apply Forall_lookup. intros k row Hk.
  destruct (decide (i = k)) as [->|Hne].
  - rewrite list_lookup_alter_eq in Hk.
    destruct (a !! k) as [r|] eqn:Hr; simplify_eq/=.
    rewrite length_insert. by eapply (Forall_lookup_1 _ _ _ _ Hrows).
  - rewrite list_lookup_alter_ne in Hk by done.
    by eapply (Forall_lookup_1 _ _ _ _ Hrows).
Qed.

Lemma get2_set2 n a i j v i' j' :
  shape n a → i < n → j < n →
  get2 (set2 a i j v) i' j'
  = if decide (i = i' ∧ j = j') then v else get2 a i' j'.
Proof.
  intros [Hlen Hrows] Hi Hj. unfold get2, set2.
  destruct (decide (i = i')) as [<-|Hne].
  - rewrite list_lookup_alter_eq.
    destruct (lookup_lt_is_Some_2 a i) as [row Hrow]; [lia|].
    rewrite Hrow. simpl.
    assert (length row = n) as Hr by by eapply (Forall_lookup_1 _ _ _ _ Hrows).
    destruct (decide (j = j')) as [<-|Hnej].
    + rewrite list_lookup_insert_eq by lia. by rewrite decide_True.
    + rewrite list_lookup_insert_ne by done.
      rewrite decide_False; [done|]. by intros [_ ?].
  - rewrite list_lookup_alter_ne by done.
    rewrite decide_False; [done|]. by intros [? _].
Qed.

End Matrix.

(** ** Network generator: [generate_uav_network] *)

Module Generator.
Import Matrix.

Definition position := (float * float * float)%type.
Definition feature := (float * float * float)%type.

(** [np.random.rand(num_nodes, 3) * [area_size, area_size, 150]], one row *)
Definition scale (area_size : float) (u : position) : position :=
  let '(x, y, z) := u in
  ((x * area_size)%float, (y * area_size)%float, (z * 150)%float).

(** [positions[i] - positions[j]] *)
Definition vsub (p q : position) : position :=
  let '(x1, y1, z1) := p in
  let '(x2, y2, z2) := q in
  ((x1 - x2)%float, (y1 - y2)%float, (z1 - z2)%float).

(** Modelled from the spec: numpy's [np.linalg.norm] is not part of the
    repository; on a vector of three components it is the Euclidean norm,
    the square root of the sum of the squares. *)
Definition norm (v : position) : float :=
  let '(x, y, z) := v in PrimFloat.sqrt (x * x + y * y + z * z)%float.

Definition communication_range : float := 250%float.

(** Body of the inner loop at [(i, j)]. [positions] has [num_nodes] rows
    and [i], [j] come from [range(num_nodes)], so both rows exist. *)
Definition link (positions : list position) (i : nat)
    (adjacency : matrix) (j : nat) : matrix :=
  match positions !! i, positions !! j with
  | Some p_i, Some p_j =>
      let dist := norm (vsub p_i p_j) in
      if (dist <? communication_range)%float
      then set2 (set2 adjacency i j 1) j i 1
      else adjacency
  | _, _ => adjacency
  end.

(** [for i in range(num_nodes): for j in range(i+1, num_nodes): ...] over
    [adjacency = np.zeros((num_nodes, num_nodes))] *)
Definition build_adjacency (num_nodes : nat) (positions : list position)
    : matrix :=
  foldl (λ adjacency i,
           foldl (link positions i) adjacency
                 (seq (i + 1) (num_nodes - (i + 1))))
        (zeros num_nodes num_nodes) (seq 0 num_nodes).

(** The networkx graph: one node per index carrying its position and its
    features, one edge of weight 1.0 per pair [i < j] with
    [adjacency[i][j] == 1]. *)
Record graph := Graph {
  nodes : list (nat * position * feature);
  edges : list (nat * nat * float)
}.

Definition zero3 : float * float * float := (0%float, 0%float, 0%float).

Definition build_graph (num_nodes : nat) (positions : list position)
    (features : list feature) (adjacency : matrix) : graph :=
  {| nodes := map (λ i, (i, default zero3 (positions !! i),
                            default zero3 (features !! i)))
                  (seq 0 num_nodes);
     edges := i ← seq 0 num_nodes;
              j ← seq (i + 1) (num_nodes - (i + 1));
              if decide (get2 adjacency i j = 1%Z)
              then [(i, j, 1%float)] else [] |}.

(** [generate_uav_network(num_nodes, area_size)]; [rand] is the array
    returned by [np.random.rand(num_nodes, 3)] and [features] the rows
    filled by the three [np.random.uniform] draws per node. *)
Definition generate_uav_network (num_nodes : nat) (area_size : float)
    (rand : list position) (features : list feature)
    : list position * matrix * list feature * graph :=
  let positions := map (scale area_size) rand in
  let adjacency := build_adjacency num_nodes positions in
  (positions, adjacency, features,
   build_graph num_nodes positions features adjacency).

(** *** The loop nest as one pass over the pairs [i < j] *)

Definition pairs (num_nodes : nat) : list (nat * nat) :=
  i ← seq 0 num_nodes; (λ j, (i, j)) <$> seq (i + 1) (num_nodes - (i + 1)).

Definition close (positions : list position) (i j : nat) : bool :=
  match positions !! i, positions !! j with
  | Some p_i, Some p_j => (norm (vsub p_i p_j) <? communication_range)%float
  | _, _ => false
  end.

Definition hit (p : nat * nat) (a b : nat) : Prop :=
  (p.1 = a ∧ p.2 = b) ∨ (p.1 = b ∧ p.2 = a).

Definition marked (positions : list position) (ps : list (nat * nat))
    (a b : nat) : bool :=
  existsb (λ p, close positions p.1 p.2 && bool_decide (hit p a b)) ps.

Lemma link_close positions i adjacency j :
  link positions i adjacency j
  = if close positions i j
    then set2 (set2 adjacency i j 1) j i 1 else adjacency.
Proof.
  unfold link, close.
  destruct (positions !! i); [|done]. by destruct (positions !! j).
Qed.

Lemma foldl_bind {A B C} (f : A → C → A) (g : B → list C) a (l : list B) :
  foldl f a (l ≫= g) = foldl (λ a x, foldl f a (g x)) a l.
Proof.
  revert a. induction l as [|x l IH]; intros a; [done|].
  simpl. by rewrite foldl_app, IH.
Qed.

Lemma build_adjacency_pairs num_nodes positions :
  build_adjacency num_nodes positions
  = foldl (λ adjacency p, link positions p.1 adjacency p.2)
          (zeros num_nodes num_nodes) (pairs num_nodes).
Proof.
  unfold build_adjacency, pairs. rewrite foldl_bind.
  generalize (zeros num_nodes num_nodes).
  induction (seq 0 num_nodes) as [|i l IH]; intros a; [done|].
  simpl. rewrite <- IH. f_equal.
  generalize (seq (i + 1) (num_nodes - (i + 1))). clear.
  intros js. revert a. induction js as [|j js IH]; intros a; [done|].
  simpl. apply IH.
Qed.

Lemma elem_of_pairs num_nodes i j :
  (i, j) ∈ pairs num_nodes ↔ i < j ∧ j < num_nodes.
Proof.
  unfold pairs. rewrite list_elem_of_bind. split.
  - intros (i' & Hj & Hi). apply list_elem_of_fmap in Hj as (j' & Heq & Hj).
    simplify_eq. apply elem_of_seq in Hj, Hi. lia.
  - intros [Hij Hj]. exists i. split.
    + apply list_elem_of_fmap. exists j. split; [done|].
      apply elem_of_seq. lia.
    + apply elem_of_seq. lia.
Qed.

Lemma link_get2 n positions adjacency i j a b :
  shape n adjacency → i < n → j < n →
  get2 (link positions i adjacency j) a b
  = if close positions i j && bool_decide (hit (i, j) a b)
    then 1%Z else get2 adjacency a b.
Proof.
  intros Hs Hi Hj. rewrite link_close.
  destruct (close positions i j); simpl; [|done].
  rewrite (get2_set2 n) by eauto using shape_set2.
  rewrite (get2_set2 n) by done.
  unfold hit. simpl.
  destruct (decide (j = a ∧ i = b)) as [[-> ->]|Hji].
  { rewrite bool_decide_eq_true_2; [done|]. by right. }
  destruct (decide (i = a ∧ j = b)) as [[-> ->]|Hij].
  { rewrite bool_decide_eq_true_2; [done|]. by left. }
  rewrite bool_decide_eq_false_2; [done|]. intros [[??]|[??]]; auto.
Qed.

Lemma foldl_link n positions ps adjacency :
  shape n adjacency →
  Forall (λ p, p.1 < n ∧ p.2 < n) ps →
  let adjacency' :=
    foldl (λ adjacency p, link positions p.1 adjacency p.2) adjacency ps in
  shape n adjacency' ∧
  ∀ a b, get2 adjacency' a b
         = if marked positions ps a b then 1%Z else get2 adjacency a b.
Proof.
  intros Hs Hps. revert adjacency Hs.
  induction Hps as [|p ps [Hp1 Hp2] _ IH]; intros adjacency Hs; [done|].
  simpl.
  assert (shape n (link positions p.1 adjacency p.2)) as Hs'.
  { rewrite link_close. destruct (close _ _ _); eauto using shape_set2. }
  destruct (IH _ Hs') as [Hshape Hget]. split; [done|].
  intros a b. rewrite Hget, (link_get2 n) by done.
  destruct p as [i j]; simpl.
  destruct (marked positions ps a b); [by rewrite orb_true_r|].
  by rewrite orb_false_r.
Qed.

Lemma marked_true positions ps a b :
  marked positions ps a b = true
  ↔ ∃ p, p ∈ ps ∧ close positions p.1 p.2 = true ∧ hit p a b.
Proof.
  unfold marked. rewrite existsb_exists. split.
  - intros (p & Hin & Hp). apply andb_true_iff in Hp as [Hc Hh].
    apply bool_decide_eq_true in Hh. exists p.
    by rewrite list_elem_of_In.
  - intros (p & Hin & Hc & Hh). exists p. rewrite <- list_elem_of_In.
    split; [done|]. rewrite Hc. simpl. by apply bool_decide_eq_true.
Qed.

Lemma build_adjacency_spec num_nodes positions :
  let adjacency := build_adjacency num_nodes positions in
  shape num_nodes adjacency ∧
  ∀ a b, get2 adjacency a b
         = if marked positions (pairs num_nodes) a b then 1%Z else 0%Z.
Proof.
  simpl. rewrite build_adjacency_pairs.
  destruct (foldl_link num_nodes positions (pairs num_nodes)
              (zeros num_nodes num_nodes)) as [Hs Hget].
  - apply shape_zeros.
  - apply Forall_forall. intros [i j] Hin.
    apply elem_of_pairs in Hin. simpl. lia.
  - split; [done|]. intros a b. by rewrite Hget, get2_zeros.
Qed.

Lemma marked_sym positions ps a b :
  marked positions ps a b = marked positions ps b a.
Proof.
  unfold marked. induction ps as [|p ps IH]; [done|].
  simpl. rewrite IH. do 2 f_equal. apply bool_decide_ext.
  unfold hit. tauto.
Qed.

Lemma marked_pairs positions num_nodes a b :
  marked positions (pairs num_nodes) a b = true
  ↔ a ≠ b ∧ a `max` b < num_nodes
    ∧ close positions (a `min` b) (a `max` b) = true.
Proof.
  rewrite marked_true. split.
  - intros ([i j] & Hin & Hc & Hh). apply elem_of_pairs in Hin.
    simpl in Hc. destruct Hh as [[??]|[??]]; simplify_eq/=.
    + rewrite Nat.min_l, Nat.max_r by lia. split_and!; [lia|lia|done].
    + rewrite Nat.min_r, Nat.max_l by lia. split_and!; [lia|lia|done].
  - intros (Hne & Hmax & Hc). exists (a `min` b, a `max` b).
    split_and!; [|done|].
    + apply elem_of_pairs. lia.
    + unfold hit. simpl. lia.
Qed.

Lemma elem_of_edges num_nodes positions features adjacency i j w :
  (i, j, w) ∈ edges (build_graph num_nodes positions features adjacency)
  ↔ i < j ∧ j < num_nodes ∧ get2 adjacency i j = 1%Z ∧ w = 1%float.
Proof.
  simpl. rewrite list_elem_of_bind. split.
  - intros (i' & Hin & Hi). apply list_elem_of_bind in Hin as (j' & Hin & Hj).
    apply elem_of_seq in Hi, Hj.
    destruct (decide (get2 adjacency i' j' = 1%Z)) as [Hadj|]; [|by inv Hin].
    apply list_elem_of_singleton in Hin. simplify_eq.
    split_and!; [lia|lia|done|done].
  - intros (Hij & Hj & Hadj & ->). exists i. split; [|apply elem_of_seq; lia].
    apply list_elem_of_bind. exists j. split; [|apply elem_of_seq; lia].
    rewrite decide_True by done. by apply list_elem_of_singleton.
Qed.

Lemma build_adjacency_get2_sym num_nodes positions i j :
  get2 (build_adjacency num_nodes positions) i j
  = get2 (build_adjacency num_nodes positions) j i.
Proof.
  destruct (build_adjacency_spec num_nodes positions) as [_ Hget].
  by rewrite !Hget, marked_sym.
Qed.

Lemma build_adjacency_get2_one num_nodes positions i j :
  get2 (build_adjacency num_nodes positions) i j = 1%Z →
  i ≠ j ∧ i < num_nodes ∧ j < num_nodes.
Proof.
  destruct (build_adjacency_spec num_nodes positions) as [_ Hget].
  rewrite Hget.
  destruct (marked positions (pairs num_nodes) i j) eqn:Hm; [|done].
  apply marked_pairs in Hm as (? & ? & _). lia.
Qed.

(** *** C4 *)


(** Three nodes in a 1000 x 1000 area: nodes 0 and 1 are 125 apart, node 2
    is far from both. *)
Definition rand3 : list position :=
  [(0, 0, 0); (0.125, 0, 0); (0.5, 0.5, 0)]%float.
Definition features3 : list feature :=
  [(1, 0.5, 0.125); (1.5, 0.875, 0.5); (0.75, 0.375, 0)]%float.


Example build_adjacency_rand3 :
  build_adjacency 3 (map (scale 1000) rand3)
  = [[0; 1; 0]; [1; 0; 0]; [0; 0; 0]]%Z.
Proof. vm_compute. reflexivity. Qed.

(** The bound is strict: two nodes exactly 250 apart are not linked, two
    nodes 249.5 apart are. *)
Example build_adjacency_at_range :
  build_adjacency 2 (map (scale 1000) [(0, 0, 0); (0.25, 0, 0)]%float)
  = [[0; 0]; [0; 0]]%Z
  ∧ build_adjacency 2 (map (scale 1000) [(0, 0, 0); (0.2495, 0, 0)]%float)
    = [[0; 1]; [1; 0]]%Z.
Proof. split; vm_compute; reflexivity. Qed.

End Generator.

(** ** The feature scaler: [StandardScaler().fit_transform] *)

Module Scaler.
Local Open Scope R_scope.

Definition sum (xs : list R) : R := fold_right Rplus 0 xs.

Definition mean (xs : list R) : R := sum xs / INR (length xs).

(** Population variance, as [np.var] computes it. *)
Definition variance (xs : list R) : R :=
  mean (map (λ x, Rsqr (x - mean xs)) xs).

Definition std (xs : list R) : R := sqrt (variance xs).

(** The divisor of a column: its standard deviation, replaced by 1 when it
    is 0. *)
Definition scale_ (xs : list R) : R :=
  if Req_dec_T (std xs) 0 then 1 else std xs.

Definition standardize (xs : list R) : list R :=
  map (λ x, (x - mean xs) / scale_ xs) xs.

(** [X[:, j]] *)
Definition column (X : list (list R)) (j : nat) : list R :=
  map (λ row, nth j row 0) X.

(** Modelled from the spec: scikit-learn's [StandardScaler] is not part of
    the repository; the script only calls [scaler.fit_transform(features_np)].
    The mean and the standard deviation are taken column by column over the
    matrix that is transformed, every entry becomes [(x - mean) / std], and
    a column of standard deviation 0 is divided by 1 instead. Floating-point
    rounding is left out: the entries are real numbers. *)
Definition fit_transform (X : list (list R)) : list (list R) :=
  map (imap (λ j x, (x - mean (column X j)) / scale_ (column X j))) X.

Lemma sum_affine m s xs :
  sum (map (λ x, (x - m) / s) xs) = (sum xs - INR (length xs) * m) / s.
Proof.
  induction xs as [|x xs IH].
  - simpl. unfold Rdiv. ring.
  - cbn [map sum fold_right length]. fold (sum xs).
    fold (sum (map (λ x, (x - m) / s) xs)). rewrite IH, S_INR.
    unfold Rdiv. ring.
Qed.

Lemma sum_sqr_scaled m s c xs :
  sum (map (λ y, Rsqr (y - c)) (map (λ x, (x - m) / s + c) xs))
  = sum (map (λ x, Rsqr (x - m)) xs) * Rsqr (/ s).
Proof.
  induction xs as [|x xs IH].
  - simpl. ring.
  - cbn [map sum fold_right]. fold (sum (map (λ x, Rsqr (x - m)) xs)).
    fold (sum (map (λ y, Rsqr (y - c)) (map (λ x, (x - m) / s + c) xs))).
    rewrite IH. unfold Rsqr, Rdiv. ring.
Qed.

Lemma sum_sqr_nonneg m xs : 0 <= sum (map (λ x, Rsqr (x - m)) xs).
Proof.
  induction xs as [|x xs IH]; simpl; [lra|].
  pose proof (Rle_0_sqr (x - m)). fold (sum (map (λ x, Rsqr (x - m)) xs)). lra.
Qed.

Lemma sum_sqr_zero m xs :
  sum (map (λ x, Rsqr (x - m)) xs) = 0 → Forall (λ x, x = m) xs.
Proof.
  induction xs as [|x xs IH]; intros Hsum; [constructor|].
  cbn [map sum fold_right] in Hsum.
  fold (sum (map (λ x, Rsqr (x - m)) xs)) in Hsum.
  pose proof (Rle_0_sqr (x - m)). pose proof (sum_sqr_nonneg m xs).
  constructor.
  - assert (Rsqr (x - m) = 0) as Hsq by lra.
    apply Rsqr_0_uniq in Hsq. lra.
  - apply IH. lra.
Qed.

Lemma INR_length_pos {A} (xs : list A) : xs ≠ [] → 0 < INR (length xs).
Proof.
  intros Hne. destruct xs; [done|]. apply lt_0_INR. simpl. lia.
Qed.

Lemma variance_nonneg xs : 0 <= variance xs.
Proof.
  unfold variance, mean at 1. rewrite length_map.
  destruct xs as [|x xs]; [simpl; unfold Rdiv; lra|].
  apply Rmult_le_pos; [apply sum_sqr_nonneg|].
  left. apply Rinv_0_lt_compat, INR_length_pos. done.
Qed.

Lemma variance_zero xs : variance xs = 0 → Forall (λ x, x = mean xs) xs.
Proof.
  intros Hvar. destruct xs as [|x xs]; [constructor|].
  apply sum_sqr_zero. unfold variance, mean at 1 in Hvar.
  rewrite length_map in Hvar.
  pose proof (INR_length_pos (x :: xs) ltac:(done)) as Hn.
  apply Rmult_integral in Hvar as [Hvar|Hinv]; [done|].
  pose proof (Rinv_0_lt_compat _ Hn). lra.
Qed.

Lemma std_zero xs : std xs = 0 ↔ variance xs = 0.
Proof.
  unfold std. split.
  - intros Hs. apply sqrt_eq_0; [apply variance_nonneg|done].
  - intros ->. apply sqrt_0.
Qed.

Lemma mean_standardize xs : std xs ≠ 0 → mean (standardize xs) = 0.
Proof.
  intros Hstd. unfold standardize, mean at 1.
  rewrite sum_affine, length_map.
  assert (xs ≠ []) as Hne.
  { intros ->. apply Hstd. apply std_zero. unfold variance, mean. simpl.
    unfold Rdiv. ring. }
  pose proof (INR_length_pos xs Hne) as Hn.
  unfold mean. unfold Rdiv.
  replace (sum xs - INR (length xs) * (sum xs * / INR (length xs)))
    with 0 by (field; lra).
  ring.
Qed.

Lemma variance_standardize xs : std xs ≠ 0 → variance (standardize xs) = 1.
Proof.
  intros Hstd. unfold variance. rewrite mean_standardize by done.
  unfold scale_ in *. unfold standardize, scale_.
  destruct (Req_dec_T (std xs) 0) as [?|_]; [done|].
  rewrite <- (map_ext (λ x, (x - mean xs) / std xs + 0)
                      (λ x, (x - mean xs) / std xs)) by (intros; lra).
  unfold mean at 1. rewrite sum_sqr_scaled, !length_map.
  assert (variance xs = Rsqr (std xs)) as Hsq.
  { unfold std, Rsqr. rewrite sqrt_sqrt; [done|apply variance_nonneg]. }
  unfold variance, mean at 1 in Hsq. rewrite length_map in Hsq.
  assert (xs ≠ []) as Hne.
  { intros ->. apply Hstd. apply std_zero. unfold variance, mean. simpl.
    unfold Rdiv. ring. }
  pose proof (INR_length_pos xs Hne) as Hn.
  unfold Rdiv in *.
  replace (sum (map (λ x, Rsqr (x - mean xs)) xs) * Rsqr (/ std xs)
           * / INR (length xs))
    with (sum (map (λ x, Rsqr (x - mean xs)) xs) * / INR (length xs)
          * Rsqr (/ std xs)) by ring.
  rewrite Hsq. unfold Rsqr. field. done.
Qed.

Lemma standardize_constant xs :
  std xs = 0 → Forall (λ y, y = 0) (standardize xs).
Proof.
  intros Hstd. unfold standardize. apply Forall_map.
  apply std_zero, variance_zero in Hstd.
  eapply Forall_impl; [exact Hstd|]. simpl. intros x ->.
  unfold Rdiv. ring.
Qed.

Lemma column_fit_transform (X : list (list R)) (width j : nat) :
  Forall (λ row, length row = width) X → (j < width)%nat →
  column (fit_transform X) j = standardize (column X j).
Proof.
  intros Hrows Hj. unfold fit_transform, standardize.
  set (m := mean (column X j)). set (s := scale_ (column X j)).
  unfold column. rewrite !map_map.
  apply map_ext_Forall. eapply Forall_impl; [exact Hrows|].
  simpl. intros row Hlen.
  destruct (lookup_lt_is_Some_2 row j) as [x Hx]; [lia|].
  rewrite (nth_lookup_Some _ _ _ _ Hx).
  apply nth_lookup_Some. by rewrite list_lookup_imap, Hx.
Qed.

(** *** C5 *)

(** C5. For every N x 3 feature matrix the scaler returns, column by
    column, [(x - mean) / std], the divisor being 1 for a column of standard
    deviation 0. A column of nonzero variance comes out with mean 0 and
    standard deviation 1 (exactly, rounding being left out); a column of
    zero variance comes out all zero. *)
Theorem fit_transform_standardizes (X : list (list R)) (j : nat) :
  Forall (λ row, length row = 3%nat) X → (j < 3)%nat →
  column (fit_transform X) j
  = map (λ x, (x - mean (column X j))
              / (if Req_dec_T (std (column X j)) 0 then 1
                 else std (column X j)))
        (column X j)
  ∧ (variance (column X j) ≠ 0 →
     mean (column (fit_transform X) j) = 0
     ∧ std (column (fit_transform X) j) = 1)
  ∧ (variance (column X j) = 0 →
     Forall (λ y, y = 0) (column (fit_transform X) j)).
Proof.
  intros Hrows Hj. rewrite (column_fit_transform X 3 j) by done.
  split_and!; [done| |].
  - intros Hvar. assert (std (column X j) ≠ 0) as Hstd.
    { intros Hs. by apply std_zero in Hs. }
    split; [by apply mean_standardize|].
    unfold std at 1. rewrite variance_standardize by done. apply sqrt_1.
  - intros Hvar. by apply standardize_constant, std_zero.
Qed.

Definition X2 : list (list R) := [[0; 1; 5]; [2; 1; 8]].

Lemma fit_transform_witness :
  Forall (λ row, length row = 3%nat) X2 ∧ (0 < 3)%nat
  ∧ column (fit_transform X2) 0
    = map (λ x, (x - mean (column X2 0))
                / (if Req_dec_T (std (column X2 0)) 0 then 1
                   else std (column X2 0)))
          (column X2 0)
  ∧ (variance (column X2 0) ≠ 0 →
     mean (column (fit_transform X2) 0) = 0
     ∧ std (column (fit_transform X2) 0) = 1)
  ∧ (variance (column X2 0) = 0 →
     Forall (λ y, y = 0) (column (fit_transform X2) 0)).
Proof.
  assert (Forall (λ row, length row = 3%nat) X2) as Hrows
    by (repeat constructor).
  assert (0 < 3)%nat as Hj by lia.
  split; [exact Hrows|]. split; [exact Hj|].
  exact (fit_transform_standardizes X2 0 Hrows Hj).
Defined.

End Scaler.

(** ** The encoder: [GraphSAGE] *)

Module Encoder.

Abbreviation vector := (list float).
Abbreviation tensor := (list (list float)).

Definition float_of_nat (n : nat) : float :=
  PrimFloat.of_uint63 (Uint63.of_Z (Z.of_nat n)).

Definition dot (u v : vector) : float :=
  foldl PrimFloat.add 0%float (zip_with PrimFloat.mul u v).

Definition vadd (u v : vector) : vector := zip_with PrimFloat.add u v.

(** Modelled from the spec: torch_geometric's [SAGEConv] is not part of the
    repository. A layer holds a linear map with bias for the aggregated
    neighbourhood and a linear map without bias for the node itself; the
    aggregation is the mean over the sources of the edges that end in the
    node, the zero vector when there are none. *)
Record sage_conv := SAGEConv {
  lin_l_weight : tensor;
  lin_l_bias : vector;
  lin_r_weight : tensor
}.

Definition lin_l (conv : sage_conv) (x : vector) : vector :=
  vadd (map (λ w, dot w x) (lin_l_weight conv)) (lin_l_bias conv).

Definition lin_r (conv : sage_conv) (x : vector) : vector :=
  map (λ w, dot w x) (lin_r_weight conv).

Definition sources (edge_index : list (nat * nat)) (i : nat) : list nat :=
  omap (λ e, if decide (e.2 = i) then Some e.1 else None) edge_index.

Definition mean (width : nat) (rows : tensor) : vector :=
  match rows with
  | [] => replicate width 0%float
  | _ => map (λ total, (total / float_of_nat (length rows))%float)
             (foldl vadd (replicate width 0%float) rows)
  end.

Definition aggregate (x : tensor) (edge_index : list (nat * nat)) (i : nat)
    : vector :=
  mean (length (default [] (x !! 0)))
       (omap (λ j, x !! j) (sources edge_index i)).

Definition sage_forward (conv : sage_conv) (x : tensor)
    (edge_index : list (nat * nat)) : tensor :=
  imap (λ i x_i, vadd (lin_l conv (aggregate x edge_index i)) (lin_r conv x_i))
       x.

(** Modelled from the spec: torch's [F.relu] is not part of the repository;
    it is the rectifier, entry by entry. *)
Definition relu (x : tensor) : tensor :=
  map (map (λ v, if (v <=? 0)%float then 0%float else v)) x.

(** Modelled from the spec: torch's [F.dropout(x, p, training)] is not part
    of the repository. [keep r c] is the Bernoulli draw of torch's generator
    for the entry at row [r], column [c]; in training mode the input is
    multiplied by a noise tensor whose entries are [1 / (1 - p)] where the
    draw keeps the entry and 0 elsewhere, in evaluation mode the input is
    returned as it is. *)
Definition dropout (x : tensor) (p : float) (training : bool)
    (keep : nat → nat → bool) : tensor :=
  if training then
    imap (λ r, imap (λ c v,
            (v * (if keep r c then 1 / (1 - p) else 0))%float)) x
  else x.

(** [GraphSAGE(in_channels, hidden_channels, out_channels)] *)
Record graph_sage := GraphSAGE {
  conv1 : sage_conv;
  conv2 : sage_conv;
  training : bool
}.

(** [GraphSAGE.forward] *)
Definition forward (self : graph_sage) (keep : nat → nat → bool)
    (x : tensor) (edge_index : list (nat * nat)) : tensor :=
  let x := sage_forward (conv1 self) x edge_index in
  let x := relu x in
  let x := dropout x 0.2 (training self) keep in
  let x := sage_forward (conv2 self) x edge_index in
  x.

(** [model.train()] and [model.eval()] *)
Definition train (self : graph_sage) : graph_sage :=
  GraphSAGE (conv1 self) (conv2 self) true.
Definition eval (self : graph_sage) : graph_sage :=
  GraphSAGE (conv1 self) (conv2 self) false.

(** The shapes [SAGEConv(in_channels, out_channels)] gives its parameters. *)
Definition conv_shape (in_channels out_channels : nat) (conv : sage_conv)
    : Prop :=
  length (lin_l_weight conv) = out_channels
  ∧ Forall (λ w, length w = in_channels) (lin_l_weight conv)
  ∧ length (lin_l_bias conv) = out_channels
  ∧ length (lin_r_weight conv) = out_channels
  ∧ Forall (λ w, length w = in_channels) (lin_r_weight conv).

(** The model [train_embeddings] builds: [GraphSAGE(3, 32, 16)]. *)
Definition model_shape (self : graph_sage) : Prop :=
  conv_shape 3 32 (conv1 self) ∧ conv_shape 32 16 (conv2 self).

Definition has_shape (rows cols : nat) (x : tensor) : Prop :=
  length x = rows ∧ Forall (λ row, length row = cols) x.

(** A model of the right shape, and a graph of three nodes with the edge
    between 0 and 1 in both directions. *)
Definition conv_of (in_channels out_channels : nat) (w b : float)
    : sage_conv :=
  SAGEConv (replicate out_channels (replicate in_channels w))
           (replicate out_channels b)
           (replicate out_channels (replicate in_channels (- w)%float)).

Definition model3 : graph_sage :=
  GraphSAGE (conv_of 3 32 0.5 0.25) (conv_of 32 16 (-0.125) (-1)) true.

Definition x3 : tensor := [[1; 0.5; -1]; [2; 0; 0.25]; [-0.5; 1; 1]]%float.
Definition edges3 : list (nat * nat) := [(0, 1); (1, 0)].

Definition entry (x : tensor) (r c : nat) : option float :=
  x !! r ≫= (.!! c).

Lemma length_lin_l i o conv x : conv_shape i o conv → length (lin_l conv x) = o.
Proof.
  intros (Hw & _ & Hb & _). unfold lin_l, vadd.
  rewrite length_zip_with, length_map. lia.
Qed.

Lemma length_lin_r i o conv x : conv_shape i o conv → length (lin_r conv x) = o.
Proof. intros (_ & _ & _ & Hw & _). unfold lin_r. by rewrite length_map. Qed.

Lemma sage_forward_lookup conv x edge_index i :
  sage_forward conv x edge_index !! i
  = (λ x_i, vadd (lin_l conv (aggregate x edge_index i)) (lin_r conv x_i))
    <$> x !! i.
Proof. unfold sage_forward. by rewrite list_lookup_imap. Qed.

Lemma sage_forward_shape i o conv x edge_index :
  conv_shape i o conv → has_shape (length x) o (sage_forward conv x edge_index).
Proof.
  intros Hconv. split; [unfold sage_forward; by rewrite length_imap|].
  apply Forall_lookup. intros k row Hrow.
  rewrite sage_forward_lookup in Hrow.
  destruct (x !! k) as [x_k|]; simplify_eq/=.
  unfold vadd. rewrite length_zip_with.
  rewrite (length_lin_l i o), (length_lin_r i o) by done. lia.
Qed.

Lemma entry_relu x r c :
  entry (relu x) r c
  = (λ v, if (v <=? 0)%float then 0%float else v) <$> entry x r c.
Proof.
  unfold entry, relu. rewrite list_lookup_fmap.
  destruct (x !! r) as [row|]; [|done]. simpl. by rewrite list_lookup_fmap.
Qed.

Lemma entry_dropout_training x p keep r c :
  entry (dropout x p true keep) r c
  = (λ v, (v * (if keep r c then 1 / (1 - p) else 0))%float) <$> entry x r c.
Proof.
  unfold entry, dropout. rewrite list_lookup_imap.
  destruct (x !! r) as [row|]; [|done]. simpl. by rewrite list_lookup_imap.
Qed.

Lemma conv_of_shape i o w b : conv_shape i o (conv_of i o w b).
Proof.
  unfold conv_shape, conv_of. simpl. rewrite !length_replicate.
  split_and!; try done; apply Forall_replicate, length_replicate.
Qed.

Lemma neighbour_rows (x : tensor) (edge_index : list (nat * nat)) (i : nat) :
  omap (λ j, x !! j) (sources edge_index i)
  = omap (λ e : nat * nat, if decide (e.2 = i) then x !! e.1 else None)
         edge_index.
Proof.
  unfold sources. induction edge_index as [|e edge_index IH]; [done|].
  unfold omap in *. simpl.
  destruct (decide (e.2 = i)); simpl; rewrite IH; done.
Qed.

Lemma foldl_vadd_length w (rows : tensor) (acc : vector) :
  length acc = w → Forall (λ r, length r = w) rows →
  length (foldl vadd acc rows) = w.
Proof.
  intros Hacc Hrows. revert acc Hacc.
  induction Hrows as [|r rows Hr _ IH]; intros acc Hacc; [done|].
  simpl. apply IH. unfold vadd. rewrite length_zip_with. lia.
Qed.

(** Component [k] of a sum of rows is the sum of their components [k]. *)
Lemma foldl_vadd_lookup w (rows : tensor) (acc : vector) (k : nat) :
  length acc = w → Forall (λ r, length r = w) rows → k < w →
  foldl vadd acc rows !! k
  = Some (foldl PrimFloat.add (default 0%float (acc !! k))
                ((λ row, default 0%float (row !! k)) <$> rows)).
Proof.
  intros Hacc Hrows Hk. revert acc Hacc.
  induction Hrows as [|r rows Hr _ IH]; intros acc Hacc.
  - simpl. destruct (lookup_lt_is_Some_2 acc k) as [a Ha]; [lia|].
    by rewrite Ha.
  - cbn [foldl fmap list_fmap]. rewrite IH.
    2:{ unfold vadd. rewrite length_zip_with. lia. }
    do 2 f_equal. unfold vadd. rewrite lookup_zip_with.
    destruct (lookup_lt_is_Some_2 acc k) as [a ->]; [lia|].
    destruct (lookup_lt_is_Some_2 r k) as [v ->]; [lia|]. done.
Qed.

(** The aggregated vector of a node, component by component: the sum of
    the rows of the sources of its incoming edges divided by their number,
    and 0 when it has no incoming edge. *)
Lemma aggregate_spelled w (x : tensor) (edge_index : list (nat * nat)) i x_i :
  has_shape (length x) w x → x !! i = Some x_i →
  let rows :=
    omap (λ e : nat * nat, if decide (e.2 = i) then x !! e.1 else None)
         edge_index in
  aggregate x edge_index i
  = (λ k, match rows with
          | [] => 0
          | _ :: _ =>
              foldl PrimFloat.add 0 ((λ row, default 0 (row !! k)) <$> rows)
              / PrimFloat.of_uint63 (Uint63.of_Z (Z.of_nat (length rows)))
          end)%float <$> seq 0 w.
Proof.
  intros [_ Hshape] Hi rows. unfold aggregate. rewrite neighbour_rows.
  fold rows.
  assert (length (default [] (x !! 0)) = w) as ->.
  { destruct (x !! 0) as [r0|] eqn:H0.
    - by eapply (Forall_lookup_1 _ _ _ _ Hshape).
    - apply lookup_ge_None in H0. apply lookup_lt_Some in Hi. lia. }
  assert (Forall (λ r, length r = w) rows) as Hrows.
  { apply Forall_forall. intros r Hr. unfold rows in Hr.
    apply list_elem_of_omap in Hr as (e & _ & He).
    destruct (decide (e.2 = i)); [|done].
    by eapply (Forall_lookup_1 _ _ _ _ Hshape). }
  unfold mean. apply list_eq. intros k.
  destruct rows as [|r rs] eqn:Hr.
  - rewrite list_lookup_fmap. destruct (decide (k < w)) as [Hk|Hk].
    + by rewrite lookup_replicate_2, lookup_seq_lt.
    + rewrite lookup_seq_ge by lia.
      by rewrite (proj1 (lookup_replicate_None _ _ _)) by lia.
  - change (map ?f ?l) with (f <$> l). rewrite !list_lookup_fmap.
    destruct (decide (k < w)) as [Hk|Hk].
    + rewrite (foldl_vadd_lookup w) by (done || apply length_replicate).
      rewrite lookup_replicate_2, lookup_seq_lt by done. done.
    + rewrite lookup_seq_ge by lia.
      rewrite (proj2 (lookup_ge_None _ _)); [done|].
      rewrite (foldl_vadd_length w) by (done || apply length_replicate). lia.
Qed.

(** One entry of the output of a layer, written out. *)
Lemma sage_forward_entry w conv (input : tensor)
    (edge_index : list (nat * nat)) i c x_i w_l b w_r :
  has_shape (length input) w input →
  input !! i = Some x_i →
  lin_l_weight conv !! c = Some w_l →
  lin_l_bias conv !! c = Some b →
  lin_r_weight conv !! c = Some w_r →
  let rows :=
    omap (λ e : nat * nat, if decide (e.2 = i) then input !! e.1 else None)
         edge_index in
  let mean_of_rows :=
    (λ k, match rows with
          | [] => 0
          | _ :: _ =>
              foldl PrimFloat.add 0 ((λ row, default 0 (row !! k)) <$> rows)
              / PrimFloat.of_uint63 (Uint63.of_Z (Z.of_nat (length rows)))
          end)%float <$> seq 0 w in
  sage_forward conv input edge_index !! i ≫= (.!! c)
  = Some (foldl PrimFloat.add 0 (zip_with PrimFloat.mul w_l mean_of_rows)
          + b
          + foldl PrimFloat.add 0 (zip_with PrimFloat.mul w_r x_i))%float.
Proof.
  intros Hshape Hi Hwl Hb Hwr rows mean_of_rows.
  rewrite sage_forward_lookup, Hi. cbn [fmap option_fmap option_map mbind
    option_bind].
  unfold vadd, lin_l, lin_r, vadd. rewrite !lookup_zip_with.
  change (map ?f ?l) with (f <$> l). rewrite !list_lookup_fmap, Hwl, Hb, Hwr.
  cbn [fmap option_fmap option_map mbind option_bind].
  rewrite (aggregate_spelled w input edge_index i x_i Hshape Hi). done.
Qed.

Lemma relu_shape n w x : has_shape n w x → has_shape n w (relu x).
Proof.
  intros [Hlen Hrows]. unfold relu. split; [by rewrite length_map|].
  change (map ?f ?l) with (f <$> l). apply Forall_fmap.
  eapply Forall_impl; [done|]. simpl. intros row Hrow.
  by rewrite length_map.
Qed.

Lemma dropout_shape n w x p training keep :
  has_shape n w x → has_shape n w (dropout x p training keep).
Proof.
  intros [Hlen Hrows]. unfold dropout. destruct training; [|done].
  split; [by rewrite length_imap|].
  apply Forall_lookup. intros r row Hrow.
  rewrite list_lookup_imap in Hrow.
  destruct (x !! r) as [row0|] eqn:Hr; simplify_eq/=.
  rewrite length_imap. by eapply (Forall_lookup_1 _ _ _ _ Hrows).
Qed.

(** *** C6 *)

(** C6. On a model built as [GraphSAGE(3, 32, 16)] and features of 3
    columns, the forward pass is, in order: the first layer, 32 wide; the
    rectifier, entry by entry; dropout with probability 0.2, which in
    training mode multiplies every kept entry by [1 / (1 - 0.2)] and every
    other entry by 0, and which is the identity in evaluation mode; the
    second layer, 16 wide, whose result is returned as it is. A layer gives
    node [i], in output channel [c], a linear transform of the mean of the
    rows of its neighbours plus a linear transform of its own row: with
    [rows] the rows of the sources of the edges into [i], the mean has in
    component [k] the sum of the components [k] of [rows] divided by their
    number (0 without neighbours), and the entry is the weighted sum of the
    mean under row [c] of the first weight matrix, plus bias [c], plus the
    weighted sum of the node's own row under row [c] of the second weight
    matrix. *)
Theorem forward_is_conv_relu_dropout_conv
    (self : graph_sage) (keep : nat → nat → bool)
    (x : tensor) (edge_index : list (nat * nat)) :
  model_shape self →
  has_shape (length x) 3 x →
  let layer (width : nat) (conv : sage_conv) (input output : tensor) : Prop :=
    ∀ i c x_i w_l b w_r,
      input !! i = Some x_i →
      lin_l_weight conv !! c = Some w_l →
      lin_l_bias conv !! c = Some b →
      lin_r_weight conv !! c = Some w_r →
      let rows :=
        omap (λ e : nat * nat, if decide (e.2 = i) then input !! e.1 else None)
             edge_index in
      let mean_of_rows :=
        (λ k, match rows with
              | [] => 0
              | _ :: _ =>
                  foldl PrimFloat.add 0
                        ((λ row, default 0 (row !! k)) <$> rows)
                  / PrimFloat.of_uint63 (Uint63.of_Z (Z.of_nat (length rows)))
              end)%float <$> seq 0 width in
      output !! i ≫= (.!! c)
      = Some (foldl PrimFloat.add 0 (zip_with PrimFloat.mul w_l mean_of_rows)
              + b
              + foldl PrimFloat.add 0 (zip_with PrimFloat.mul w_r x_i))%float in
  let h := sage_forward (conv1 self) x edge_index in
  let d := dropout (relu h) 0.2 (training self) keep in
  layer 3 (conv1 self) x h
  ∧ has_shape (length x) 32 h
  ∧ (∀ r c, relu h !! r ≫= (.!! c)
            = (λ v, if (v <=? 0)%float then 0%float else v)
              <$> (h !! r ≫= (.!! c)))
  ∧ (training self = true →
     ∀ r c, d !! r ≫= (.!! c)
            = (λ v, (v * (if keep r c then 1 / (1 - 0.2) else 0))%float)
              <$> (relu h !! r ≫= (.!! c)))
  ∧ (training self = false → d = relu h)
  ∧ forward self keep x edge_index = sage_forward (conv2 self) d edge_index
  ∧ layer 32 (conv2 self) d (forward self keep x edge_index)
  ∧ has_shape (length x) 16 (forward self keep x edge_index).
Proof.
  intros [Hconv1 Hconv2] Hx layer h d.
  assert (has_shape (length x) 32 h) as Hh by by apply (sage_forward_shape 3).
  assert (has_shape (length x) 32 d) as Hd
    by by apply dropout_shape, relu_shape.
  split_and!.
  - intros i c x_i w_l b w_r Hi Hwl Hb Hwr.
    by apply (sage_forward_entry 3).
  - done.
  - apply entry_relu.
  - intros Htrain r c. unfold d. rewrite Htrain. apply entry_dropout_training.
  - intros Heval. unfold d. by rewrite Heval.
  - done.
  - intros i c d_i w_l b w_r Hi Hwl Hb Hwr.
    destruct Hd as [Hlen Hrows].
    apply (sage_forward_entry 32); [|done..].
    split; [done|exact Hrows].
  - destruct Hd as [Hlen _]. rewrite <- Hlen.
    by apply (sage_forward_shape 32).
Qed.

Lemma forward_layers_witness :
  model_shape model3
  ∧ has_shape (length x3) 3 x3
  ∧ let layer (width : nat) (conv : sage_conv) (input output : tensor) : Prop :=
      ∀ i c x_i w_l b w_r,
        input !! i = Some x_i →
        lin_l_weight conv !! c = Some w_l →
        lin_l_bias conv !! c = Some b →
        lin_r_weight conv !! c = Some w_r →
        let rows :=
          omap (λ e : nat * nat, if decide (e.2 = i) then input !! e.1 else None)
               edges3 in
        let mean_of_rows :=
          (λ k, match rows with
                | [] => 0
                | _ :: _ =>
                    foldl PrimFloat.add 0
                          ((λ row, default 0 (row !! k)) <$> rows)
                    / PrimFloat.of_uint63 (Uint63.of_Z (Z.of_nat (length rows)))
                end)%float <$> seq 0 width in
        output !! i ≫= (.!! c)
        = Some (foldl PrimFloat.add 0 (zip_with PrimFloat.mul w_l mean_of_rows)
                + b
                + foldl PrimFloat.add 0 (zip_with PrimFloat.mul w_r x_i))%float in
    let h := sage_forward (conv1 model3) x3 edges3 in
    let d := dropout (relu h) 0.2 (training model3) (λ r c, Nat.even (r + c)) in
    layer 3 (conv1 model3) x3 h
    ∧ has_shape (length x3) 32 h
    ∧ (∀ r c, relu h !! r ≫= (.!! c)
              = (λ v, if (v <=? 0)%float then 0%float else v)
                <$> (h !! r ≫= (.!! c)))
    ∧ (training model3 = true →
       ∀ r c, d !! r ≫= (.!! c)
              = (λ v, (v * (if Nat.even (r + c) then 1 / (1 - 0.2) else 0))%float)
                <$> (relu h !! r ≫= (.!! c)))
    ∧ (training model3 = false → d = relu h)
    ∧ forward model3 (λ r c, Nat.even (r + c)) x3 edges3 = sage_forward (conv2 model3) d edges3
    ∧ layer 32 (conv2 model3) d (forward model3 (λ r c, Nat.even (r + c)) x3 edges3)
    ∧ has_shape (length x3) 16 (forward model3 (λ r c, Nat.even (r + c)) x3 edges3).
Proof.
  assert (model_shape model3) as Hshape
    by (vm_compute; repeat split; repeat constructor).
  assert (has_shape (length x3) 3 x3) as Hx
    by (vm_compute; repeat split; repeat constructor).
  split; [exact Hshape|]. split; [exact Hx|].
  exact (forward_is_conv_relu_dropout_conv model3 (λ r c, Nat.even (r + c))
           x3 edges3 Hshape Hx).
Defined.

(** Node 0 of the three-node graph has the one neighbour 1, whose row is
    [2; 0; 0.25]: with all weights of the first layer 0.5 and -0.5 and
    bias 0.25, its entry is [0.5 * (2 + 0 + 0.25) + 0.25 - 0.5 * (1 + 0.5 - 1)]. *)
Example first_layer_entry :
  sage_forward (conv1 model3) x3 edges3 !! 0 ≫= (.!! 0)
  = Some (0.5 * 2 + 0.5 * 0 + 0.5 * 0.25 + 0.25
          + (-0.5 * 1 + -0.5 * 0.5 + -0.5 * -1))%float.
Proof. vm_compute. reflexivity. Qed.

(** The output is not rectified: it has negative entries. *)
Example forward_output_negative :
  entry (forward (eval model3) (λ _ _, true) x3 edges3) 1 0
  = Some (-5.5)%float
  ∧ (1 / (1 - 0.2))%float = 1.25%float.
Proof. split; vm_compute; reflexivity. Qed.

(** *** C7 *)

(** C7. On a model built as [GraphSAGE(3, 32, 16)], for features of any
    number of rows N the forward output has N rows of 16 entries, in
    training and in evaluation mode; in evaluation mode the output does not
    depend on the draws of the generator, so two calls on the same
    parameters, features and edges return the same tensor. *)
Theorem forward_shape_and_eval_determinism
    (self : graph_sage) (keep keep' : nat → nat → bool)
    (x : tensor) (edge_index : list (nat * nat)) :
  model_shape self →
  has_shape (length x) 16 (forward self keep x edge_index)
  ∧ has_shape (length x) 16 (forward (eval self) keep x edge_index)
  ∧ forward (eval self) keep x edge_index
    = forward (eval self) keep' x edge_index.
Proof.
  intros [Hconv1 Hconv2].
  assert (∀ m, conv2 m = conv2 self → has_shape (length x) 16
                 (forward m keep x edge_index)) as Hany.
  { intros m Hm. unfold forward.
    set (d := dropout _ _ _ _).
    assert (length d = length x) as <-.
    { unfold d, dropout, relu, sage_forward.
      destruct (training m);
        by rewrite ?length_imap, length_map, length_imap. }
    apply (sage_forward_shape 32). by rewrite Hm. }
  split_and!; [by apply Hany|by apply Hany|done].
Qed.

Lemma forward_shape_witness :
  model_shape model3
  ∧ has_shape (length x3) 16
      (forward model3 (λ r c, Nat.even (r + c)) x3 edges3)
  ∧ has_shape (length x3) 16
      (forward (eval model3) (λ r c, Nat.even (r + c)) x3 edges3)
  ∧ forward (eval model3) (λ r c, Nat.even (r + c)) x3 edges3
    = forward (eval model3) (λ _ _, false) x3 edges3.
Proof.
  assert (model_shape model3) as Hshape
    by (vm_compute; repeat split; repeat constructor).
  split; [exact Hshape|].
  exact (forward_shape_and_eval_determinism model3
           (λ r c, Nat.even (r + c)) (λ _ _, false) x3 edges3 Hshape).
Defined.

End Encoder.

(** ** Outcomes of Python code *)

Inductive exn :=
  | TypeError (msg : string)
  | ValueError (msg : string)
  | IndexError (msg : string).

(** A call returns a value, raises, or is still inside a loop when the
    finite prefix of the random stream it was given is used up. *)
Inductive outcome (A : Type) :=
  | Return (a : A)
  | Raise (e : exn)
  | Running.
Arguments Return {A} a.
Arguments Raise {A} e.
Arguments Running {A}.

Definition obind {A B} (m : outcome A) (k : A → outcome B) : outcome B :=
  match m with
  | Return a => k a
  | Raise e => Raise e
  | Running => Running
  end.

Declare Scope py_scope.
Delimit Scope py_scope with py.
Notation "x ←! m ; k" := (obind m (λ x, k))
  (at level 20, m at level 100, k at level 200, only parsing) : py_scope.

(** ** Negative sampling: the [while] loop of an epoch *)

Module Sampler.
Import Matrix.
Local Open Scope py_scope.

(** Modelled from the spec: numpy's [np.random.randint(low, high)] is not
    part of the repository; a draw from [low, high) is the next raw word of
    the generator reduced into the interval, and numpy raises [ValueError]
    when the interval is empty. *)
Definition randint (low high raw : nat) : outcome nat :=
  if decide (low < high)
  then Return (low + raw `mod` (high - low))
  else Raise (ValueError "low >= high").

(** [while len(neg_samples) < num_pos: ...]; each turn of the loop takes
    the two raw words of its two [randint] calls from [draws]. The result
    carries the words left for later turns. *)
Fixpoint negative_sampling (adjacency : matrix) (num_nodes num_pos : nat)
    (neg_samples : list (nat * nat)) (draws : list (nat * nat))
    : outcome (list (nat * nat) * list (nat * nat)) :=
  if decide (length neg_samples < num_pos) then
    match draws with
    | [] => Running
    | (r_i, r_j) :: draws' =>
        i ←! randint 0 num_nodes r_i;
        j ←! randint 0 num_nodes r_j;
        if bool_decide (i ≠ j) && (get2 adjacency i j =? 0)%Z
        then negative_sampling adjacency num_nodes num_pos
               (neg_samples ++ [(i, j)]) draws'
        else negative_sampling adjacency num_nodes num_pos
               neg_samples draws'
    end
  else Return (neg_samples, draws).

(** The pair a turn of the loop appends, if it appends one. *)
Definition accept (adjacency : matrix) (num_nodes : nat)
    (d : nat * nat) : option (nat * nat) :=
  let i := d.1 `mod` num_nodes in
  let j := d.2 `mod` num_nodes in
  if bool_decide (i ≠ j) && (get2 adjacency i j =? 0)%Z
  then Some (i, j) else None.

Definition accepted (adjacency : matrix) (num_nodes : nat)
    (draws : list (nat * nat)) : list (nat * nat) :=
  omap (accept adjacency num_nodes) draws.

Lemma accepted_cons adjacency num_nodes d draws :
  accepted adjacency num_nodes (d :: draws)
  = option_list (accept adjacency num_nodes d)
    ++ accepted adjacency num_nodes draws.
Proof. unfold accepted. simpl. by destruct (accept _ _ d). Qed.

Lemma randint_0 num_nodes raw :
  0 < num_nodes → randint 0 num_nodes raw = Return (raw `mod` num_nodes).
Proof.
  intros Hn. unfold randint. rewrite decide_True by done.
  by rewrite Nat.sub_0_r.
Qed.

Lemma negative_sampling_done adjacency num_nodes num_pos neg_samples draws :
  num_pos ≤ length neg_samples →
  negative_sampling adjacency num_nodes num_pos neg_samples draws
  = Return (neg_samples, draws).
Proof. intros Hle. destruct draws; simpl; by rewrite decide_False by lia. Qed.

Lemma negative_sampling_step adjacency num_nodes num_pos neg_samples d draws :
  0 < num_nodes → length neg_samples < num_pos →
  negative_sampling adjacency num_nodes num_pos neg_samples (d :: draws)
  = negative_sampling adjacency num_nodes num_pos
      (neg_samples ++ option_list (accept adjacency num_nodes d)) draws.
Proof.
  intros Hn Hlt. destruct d as [r_i r_j]. simpl.
  rewrite decide_True by done. rewrite !randint_0 by done. simpl.
  unfold accept. simpl.
  destruct (bool_decide _ && _); simpl; [done|].
  by rewrite app_nil_r.
Qed.

(** The loop is still running at the end of [draws] exactly when [draws]
    holds too few acceptable pairs. *)
Lemma negative_sampling_running adjacency num_nodes num_pos neg_samples draws :
  0 < num_nodes →
  length neg_samples + length (accepted adjacency num_nodes draws) < num_pos →
  negative_sampling adjacency num_nodes num_pos neg_samples draws = Running.
Proof.
  intros Hn. revert neg_samples.
  induction draws as [|d draws IH]; intros neg_samples Hlt.
  - simpl in *. rewrite decide_True by lia. done.
  - rewrite accepted_cons, length_app in Hlt.
    rewrite negative_sampling_step by (done || lia).
    apply IH. rewrite length_app. lia.
Qed.

(** With enough acceptable pairs in [draws] the loop returns the pairs it
    held on entry followed by the first acceptable ones, in order, up to
    [num_pos] pairs in all. *)
Lemma negative_sampling_returns adjacency num_nodes num_pos neg_samples draws :
  0 < num_nodes →
  length neg_samples ≤ num_pos →
  num_pos ≤ length neg_samples + length (accepted adjacency num_nodes draws) →
  ∃ rest,
    negative_sampling adjacency num_nodes num_pos neg_samples draws
    = Return (neg_samples
              ++ take (num_pos - length neg_samples)
                      (accepted adjacency num_nodes draws), rest)
    ∧ suffix rest draws.
Proof.
  intros Hn. revert neg_samples.
  induction draws as [|d draws IH]; intros neg_samples Hle Hge.
  - simpl in *. exists []. rewrite decide_False by lia.
    by rewrite take_nil, app_nil_r.
  - destruct (decide (length neg_samples < num_pos)) as [Hlt|Hnlt].
    + rewrite negative_sampling_step by done.
      rewrite accepted_cons in *. rewrite length_app in Hge.
      destruct (accept adjacency num_nodes d) as [p|] eqn:Hacc;
        cbn [option_list option_rect length app] in *.
      * destruct (IH (neg_samples ++ [p])) as (rest & -> & Hsuf).
        { rewrite length_app. simpl. lia. }
        { rewrite length_app. simpl. lia. }
        exists rest. split; [|by apply suffix_cons_r].
        rewrite length_app. cbn [length].
        replace (num_pos - length neg_samples)
          with (S (num_pos - (length neg_samples + 1))) by lia.
        rewrite firstn_cons. by rewrite <- app_assoc.
      * rewrite app_nil_r.
        destruct (IH neg_samples) as (rest & -> & Hsuf); [done|lia|].
        exists rest. split; [done|by apply suffix_cons_r].
    + rewrite negative_sampling_done by lia. exists (d :: draws).
      replace (num_pos - length neg_samples) with 0 by lia.
      by rewrite take_0, app_nil_r.
Qed.

Lemma accepted_valid adjacency num_nodes draws i j :
  0 < num_nodes →
  (i, j) ∈ accepted adjacency num_nodes draws →
  i ≠ j ∧ i < num_nodes ∧ j < num_nodes ∧ get2 adjacency i j = 0%Z.
Proof.
  intros Hn Hin. unfold accepted in Hin.
  apply list_elem_of_omap in Hin as (d & _ & Hd). unfold accept in Hd.
  destruct (bool_decide _ && _) eqn:Hb; [|done].
  apply andb_true_iff in Hb as [Hne Hadj]. simplify_eq.
  apply bool_decide_eq_true in Hne. apply Z.eqb_eq in Hadj.
  split_and!; [done| | |done]; by apply Nat.mod_upper_bound, Nat.neq_0_lt_0.
Qed.

End Sampler.

(** ** The contrastive loss *)

Module Loss.

(** The tensor operations an epoch uses. torch is not part of the
    repository: the loss is written once, against this interface. *)
Class TorchOps (tensor : Type) := {
  t_index : tensor → list nat → tensor;      (* [t[idx]] *)
  t_mul : tensor → tensor → tensor;          (* [a * b] *)
  t_sum1 : tensor → tensor;                  (* [torch.sum(t, dim=1)] *)
  t_sigmoid : tensor → tensor;               (* [torch.sigmoid] *)
  t_log : tensor → tensor;                   (* [torch.log] *)
  t_mean : tensor → tensor;                  (* [t.mean()] *)
  t_neg : tensor → tensor;                   (* [-t] *)
  t_sub : tensor → tensor → tensor;          (* [a - b] *)
  t_rsub : Z → tensor → tensor;              (* [c - t], [c] a Python int *)
  t_logsigmoid : tensor → tensor             (* [F.logsigmoid] *)
}.

Section Generic.
Context {tensor : Type} `{!TorchOps tensor}.

(** [torch.sum(embeddings[s[:, 0]] * embeddings[s[:, 1]], dim=1)] *)
Definition similarity (embeddings : tensor) (samples : list (nat * nat))
    : tensor :=
  t_sum1 (t_mul (t_index embeddings (samples.*1))
                (t_index embeddings (samples.*2))).

(** [-torch.log(torch.sigmoid(pos_similarity)).mean()
     - torch.log(1 - torch.sigmoid(neg_similarity)).mean()] *)
Definition loss (pos_similarity neg_similarity : tensor) : tensor :=
  t_sub (t_neg (t_mean (t_log (t_sigmoid pos_similarity))))
        (t_mean (t_log (t_rsub 1 (t_sigmoid neg_similarity)))).

(** The loss as the specification requires it to be computed: both terms
    through the log-sigmoid primitive, the second one by the identity
    [log (1 - sigmoid x) = logsigmoid (-x)]. *)
Definition loss_logsigmoid (pos_similarity neg_similarity : tensor)
    : tensor :=
  t_sub (t_neg (t_mean (t_logsigmoid pos_similarity)))
        (t_mean (t_logsigmoid (t_neg neg_similarity))).
End Generic.

(** *** The computation as a term *)

(** Running the generic code on terms shows which operations it applies
    and in which order. *)
Inductive expr :=
  | Var (name : string)
  | Index (e : expr) (idx : list nat)
  | Mul (a b : expr)
  | Sum1 (e : expr)
  | Sigmoid (e : expr)
  | Log (e : expr)
  | Mean (e : expr)
  | Neg (e : expr)
  | Sub (a b : expr)
  | RSub (c : Z) (e : expr)
  | LogSigmoid (e : expr).

#[export] Instance expr_ops : TorchOps expr := {|
  t_index := Index; t_mul := Mul; t_sum1 := Sum1; t_sigmoid := Sigmoid;
  t_log := Log; t_mean := Mean; t_neg := Neg; t_sub := Sub;
  t_rsub := RSub; t_logsigmoid := LogSigmoid
|}.

(** [saturating e]: [e] is a sigmoid, or a constant minus a sigmoid; its
    value rounds to exactly 0 once the similarity is large enough in
    magnitude. *)
Definition saturating (e : expr) : bool :=
  match e with
  | Sigmoid _ | RSub _ (Sigmoid _) => true
  | _ => false
  end.

(** Some [Log] in the term is applied directly to a saturating argument. *)
Fixpoint log_of_sigmoid (e : expr) : bool :=
  match e with
  | Var _ => false
  | Log a => saturating a || log_of_sigmoid a
  | Index a _ | Sum1 a | Sigmoid a | Mean a | Neg a | RSub _ a
  | LogSigmoid a => log_of_sigmoid a
  | Mul a b | Sub a b => log_of_sigmoid a || log_of_sigmoid b
  end.

(** The number of uses of the log-sigmoid primitive in the term. *)
Fixpoint logsigmoid_uses (e : expr) : nat :=
  match e with
  | Var _ => 0
  | LogSigmoid a => S (logsigmoid_uses a)
  | Index a _ | Sum1 a | Sigmoid a | Mean a | Neg a | RSub _ a | Log a =>
      logsigmoid_uses a
  | Mul a b | Sub a b => logsigmoid_uses a + logsigmoid_uses b
  end.

(** *** C2 *)

(** The claim fails on the code. The loss of an epoch, run on the terms
    [pos_similarity] and [neg_similarity], is not the log-sigmoid form the
    specification asks for: it applies [Log] directly to a [Sigmoid] and to
    [1 - Sigmoid], and it never uses the log-sigmoid primitive. *)
Lemma loss_composes_log_with_sigmoid :
  loss (Var "pos_similarity") (Var "neg_similarity")
  ≠ loss_logsigmoid (Var "pos_similarity") (Var "neg_similarity")
  ∧ log_of_sigmoid (loss (Var "pos_similarity") (Var "neg_similarity")) = true
  ∧ logsigmoid_uses (loss (Var "pos_similarity") (Var "neg_similarity")) = 0.
Proof. split_and!; [discriminate|reflexivity|reflexivity]. Qed.

(** C2 (amended). For every epoch and whatever torch computes, the loss is
    minus the mean of [log (sigmoid pos_similarity)] minus the mean of
    [log (1 - sigmoid neg_similarity)], each logarithm composed directly with
    the sigmoid. As a term, the loss applies a logarithm directly to a
    sigmoid whatever its inputs are, and adds no use of the log-sigmoid
    primitive to those its inputs already hold. *)
Theorem loss_is_direct_composition :
  (∀ (tensor : Type) (ops : TorchOps tensor) (pos_similarity neg_similarity : tensor),
     loss pos_similarity neg_similarity
     = t_sub (t_neg (t_mean (t_log (t_sigmoid pos_similarity))))
             (t_mean (t_log (t_rsub 1 (t_sigmoid neg_similarity)))))
  ∧ (∀ p n : expr,
       log_of_sigmoid (loss p n) = true
       ∧ logsigmoid_uses (loss p n) = logsigmoid_uses p + logsigmoid_uses n
       ∧ (logsigmoid_uses (loss_logsigmoid p n)
          = 2 + logsigmoid_uses p + logsigmoid_uses n)).
Proof.
  split; [reflexivity|]. intros p n. split_and!.
  - reflexivity.
  - reflexivity.
  - simpl. lia.
Qed.

End Loss.

(** ** The trainer: [train_embeddings] and the entry point *)

Module Trainer.
Import Matrix Generator Sampler Loss.

(** The Python values that flow between [train_embeddings] and its
    caller. *)
Inductive pyobj :=
  | PyNone
  | PyInt (n : nat)
  | PyFloat (x : float)
  | PyVector (v : list float)
  | PyArray (a : list (list float))
  | PyGraph (g : graph)
  | PyTuple (items : list pyobj).

(** What a run does that the specification talks about: the messages of
    the failure paths, the forward passes, the optimizer steps, the recorded
    losses and the exports. The prints of the generator and of the device
    are not recorded. *)
Inductive event :=
  | Print (s : string)
  | PrintEpoch (epoch : nat) (loss : float)
  | ForwardPass (training : bool)
  | OptimizerStep
  | PrintFinalLoss (loss : float)
  | PlotLosses (losses : list float)
  | SaveFig (file : string)
  | SaveEmbeddings (embeddings biases : pyobj)
  | VisualizeEmbeddings (embeddings G : pyobj).

(** [edge_index]: the list built by the double loop over
    [range(num_nodes)]; the tensor made of it and its transposes hold the
    same pairs. *)
Definition edge_index_of (num_nodes : nat) (adjacency : matrix)
    : list (nat * nat) :=
  i ← seq 0 num_nodes;
  j ← seq 0 num_nodes;
  if decide (get2 adjacency i j = 1%Z) then [(i, j)] else [].

Section WithTorch.
Context {tensor model generator : Type} `{!TorchOps tensor}.

(** torch and scikit-learn as the script uses them. [forward] is the
    call [model(features, edge_index)], with the module's training flag
    and torch's random generator, which dropout advances; [step] is
    [loss.backward()] followed by [optimizer.step()]. *)
Record torch := Torch {
  forward : bool → model → list feature → list (nat * nat) → generator
            → tensor * generator;
  step : model → tensor → model;
  item : tensor → float;
  numpy : tensor → list (list float);
  fit_transform : list feature → list feature
}.

Variable T : torch.

Record train_state := TrainState {
  st_model : model;
  st_generator : generator;
  st_draws : list (nat * nat);
  st_losses : list float;
  st_trace : list event
}.

Inductive status := Ok | Failed (e : exn) | Spinning.

(** One turn of [for epoch in range(num_epochs)]. *)
Definition epoch_body (num_nodes : nat) (adjacency : matrix)
    (features : list feature) (edge_index : list (nat * nat))
    (st : train_state) (epoch : nat) : train_state * status :=
  let '(embeddings, generator') :=
    forward T true (st_model st) features edge_index (st_generator st) in
  let trace := st_trace st ++ [ForwardPass true] in
  let pos_samples := edge_index in
  let num_pos := length pos_samples in
  match negative_sampling adjacency num_nodes num_pos [] (st_draws st) with
  | Running =>
      (TrainState (st_model st) generator' [] (st_losses st) trace,
       Spinning)
  | Raise e =>
      (TrainState (st_model st) generator' (st_draws st) (st_losses st)
                  trace, Failed e)
  | Return (neg_samples, draws') =>
      let pos_similarity := similarity embeddings pos_samples in
      let neg_similarity := similarity embeddings neg_samples in
      let loss := loss pos_similarity neg_similarity in
      let model' := step T (st_model st) loss in
      (TrainState model' generator' draws'
         (st_losses st ++ [item T loss])
         (trace ++ [OptimizerStep]
            ++ (if decide ((epoch + 1) `mod` 10 = 0)
                then [PrintEpoch (epoch + 1) (item T loss)] else [])),
       Ok)
  end.

Fixpoint training_cycle (num_nodes : nat) (adjacency : matrix)
    (features : list feature) (edge_index : list (nat * nat))
    (epochs : list nat) (st : train_state) : train_state * status :=
  match epochs with
  | [] => (st, Ok)
  | epoch :: epochs' =>
      match epoch_body num_nodes adjacency features edge_index st epoch with
      | (st', Ok) =>
          training_cycle num_nodes adjacency features edge_index epochs' st'
      | r => r
      end
  end.

(** The random inputs of a run: the arrays returned by
    [np.random.rand] and the [np.random.uniform] calls, the raw words
    behind the [np.random.randint] calls, the array returned by
    [np.random.randn], the freshly initialised model with its optimizer,
    and torch's generator. *)
Record randomness := Randomness {
  rand : list position;
  uniform : list feature;
  draws : list (nat * nat);
  randn : list float;
  model0 : model;
  generator0 : generator
}.

(** [train_embeddings(num_nodes, num_epochs)]: the events of the call
    and its outcome. *)
Definition train_embeddings (num_nodes num_epochs : nat) (R : randomness)
    : list event * outcome pyobj :=
  let start := [Print "=== Start GraphSAGE training ==="] in
  let '(positions, adjacency, features, G) :=
    generate_uav_network num_nodes 1000 (rand R) (uniform R) in
  let edge_index := edge_index_of num_nodes adjacency in
  if decide (length edge_index = 0) then
    (start ++ [Print "Error: The image has no edges!"], Return PyNone)
  else
    let features := fit_transform T features in
    let st0 := TrainState (model0 R) (generator0 R) (draws R) [] start in
    match training_cycle num_nodes adjacency features edge_index
            (seq 0 num_epochs) st0 with
    | (st, Spinning) => (st_trace st, Running)
    | (st, Failed e) => (st_trace st, Raise e)
    | (st, Ok) =>
        let '(final, _) :=
          forward T false (st_model st) features edge_index
                  (st_generator st) in
        let final_embeddings := numpy T final in
        let biases := map (λ z, (z * 0.1)%float) (randn R) in
        let trace := st_trace st ++ [ForwardPass false] in
        match last (st_losses st) with
        | None => (trace, Raise (IndexError "list index out of range"))
        | Some final_loss =>
            (trace ++ [PrintFinalLoss final_loss;
                       PlotLosses (st_losses st);
                       SaveFig "training_loss.png"],
             Return (PyTuple [PyArray final_embeddings;
                              PyVector biases; PyGraph G]))
        end
    end.

(** The items an object yields when it is iterated, if it can be. *)
Definition iterate (v : pyobj) : option (list pyobj) :=
  match v with
  | PyTuple items => Some items
  | PyArray rows => Some (PyVector <$> rows)
  | PyVector xs => Some (PyFloat <$> xs)
  | PyGraph g => Some ((λ n, PyInt n.1.1) <$> nodes g)
  | PyNone | PyInt _ | PyFloat _ => None
  end.

(** [a, b, c = v] *)
Definition unpack3 (v : pyobj) : outcome (pyobj * pyobj * pyobj) :=
  match iterate v with
  | None => Raise (TypeError "cannot unpack non-iterable object")
  | Some [a; b; c] => Return (a, b, c)
  | Some _ => Raise (ValueError "wrong number of values to unpack")
  end.

Definition is_none (v : pyobj) : bool :=
  match v with PyNone => true | _ => false end.

(** The body of [if __name__ == "__main__"]: the [try] block around
    [train_embeddings(30, 50)] and the handler of [except Exception]. *)
Definition main (R : randomness) : list event * outcome unit :=
  let num_nodes := 30 in
  let num_epochs := 50 in
  let handler trace :=
    (trace ++ [Print "Error during training"], Return ()) in
  match train_embeddings num_nodes num_epochs R with
  | (trace, Running) => (trace, Running)
  | (trace, Raise e) => handler trace
  | (trace, Return result) =>
      match unpack3 result with
      | Return (embeddings, biases, G) =>
          if negb (is_none embeddings) then
            (trace ++ [SaveEmbeddings embeddings biases;
                       VisualizeEmbeddings embeddings G;
                       Print "Training completed"], Return ())
          else (trace ++ [Print "Training failed"], Return ())
      | _ => handler trace
      end
  end.

End WithTorch.

(** *** A torch that tracks corrupted parameters

    A tensor is reduced to one flag: it holds NaN. Every operation of the
    interface propagates NaN. The model is the number of optimizer steps
    applied so far; the first step corrupts the parameters, so the
    embeddings and the loss are NaN from the second epoch on. *)

#[export] Instance nan_ops : TorchOps bool := {|
  t_index b _ := b; t_mul := orb; t_sum1 b := b; t_sigmoid b := b;
  t_log b := b; t_mean b := b; t_neg b := b; t_sub := orb;
  t_rsub _ b := b; t_logsigmoid b := b
|}.

Definition nan_item (b : bool) : float := if b then nan else 0.5%float.

Definition nan_torch : torch (tensor := bool) (model := nat) (generator := unit) :=
  {| forward _ steps _ _ g := (bool_decide (1 ≤ steps), g);
     step steps _ := S steps;
     item := nan_item;
     numpy b := [[nan_item b]];
     fit_transform features := features |}.

(** *** Concrete runs *)

(** Two nodes 500 apart: no edge. *)
Definition far2 : randomness (model := nat) (generator := unit) :=
  {| rand := [(0, 0, 0); (0.5, 0, 0)]%float;
     uniform := [(1, 0.5, 0.125); (1.5, 0.875, 0.5)]%float;
     draws := [(0, 1); (1, 0); (0, 1); (1, 0)];
     randn := [1; 2]%float;
     model0 := 0; generator0 := () |}.

(** Two nodes 125 apart: the complete graph on two nodes. *)
Definition K2 : matrix :=
  build_adjacency 2 (map (scale 1000) [(0, 0, 0); (0.125, 0, 0)]%float).

(** Three nodes, one edge between 0 and 1; the draws supply two acceptable
    pairs per epoch for three epochs, with rejected pairs in between. *)
Definition run3 : randomness (model := nat) (generator := unit) :=
  {| rand := rand3; uniform := features3;
     draws := [(0, 1); (0, 2); (5, 5); (2, 0);
               (1, 2); (1, 2);
               (4, 3); (2, 1); (3, 5)];
     randn := [1; 2; 3]%float;
     model0 := 0; generator0 := () |}.

(** Thirty nodes in two layers, 285 apart inside a layer; no two are within
    range of each other. *)
Definition layer (z : float) (cs : list float) : list position :=
  x ← cs; y ← cs; [(x, y, z)].

Definition rand30 : list position :=
  take 30 (layer 0 [0; 0.285; 0.57; 0.855]%float
           ++ layer 0.999 [0.1425; 0.4275; 0.7125; 0.9975]%float).

Definition far30 : randomness (model := nat) (generator := unit) :=
  {| rand := rand30; uniform := replicate 30 (1, 0.5, 0.125)%float;
     draws := []; randn := replicate 30 1%float;
     model0 := 0; generator0 := () |}.

(** *** Reading a trace *)

Fixpoint optimizer_steps (trace : list event) : nat :=
  match trace with
  | [] => 0
  | OptimizerStep :: trace' => S (optimizer_steps trace')
  | _ :: trace' => optimizer_steps trace'
  end.

(** The events an epoch can add to the trace. *)
Inductive epoch_event : event → Prop :=
  | epoch_forward : epoch_event (ForwardPass true)
  | epoch_step : epoch_event OptimizerStep
  | epoch_print epoch loss : epoch_event (PrintEpoch epoch loss).

(** The status of the epoch loop as the random draws and the graph alone
    decide it: the sampler is run once per epoch, nothing else is. *)
Fixpoint sampling_status (adjacency : matrix) (num_nodes num_pos : nat)
    (epochs : list nat) (draws : list (nat * nat)) : status :=
  match epochs with
  | [] => Ok
  | _ :: epochs' =>
      match negative_sampling adjacency num_nodes num_pos [] draws with
      | Return (_, draws') =>
          sampling_status adjacency num_nodes num_pos epochs' draws'
      | Raise e => Failed e
      | Running => Spinning
      end
  end.

(** The events [train_embeddings] itself can emit: neither of the two the
    caller emits after it, the failure message and the export. *)
Definition train_event (ev : event) : Prop :=
  ev ≠ Print "Training failed" ∧ ∀ e b, ev ≠ SaveEmbeddings e b.

(** *** Edge lists *)

Lemma elem_of_edge_index num_nodes adjacency i j :
  (i, j) ∈ edge_index_of num_nodes adjacency
  ↔ i < num_nodes ∧ j < num_nodes ∧ get2 adjacency i j = 1%Z.
Proof.
  unfold edge_index_of. rewrite list_elem_of_bind. split.
  - intros (i' & Hin & Hi). apply list_elem_of_bind in Hin as (j' & Hin & Hj).
    apply elem_of_seq in Hi, Hj.
    destruct (decide (get2 adjacency i' j' = 1%Z)) as [Hadj|]; [|by inv Hin].
    apply list_elem_of_singleton in Hin. simplify_eq.
    split_and!; [lia|lia|done].
  - intros (Hi & Hj & Hadj). exists i. split; [|apply elem_of_seq; lia].
    apply list_elem_of_bind. exists j. split; [|apply elem_of_seq; lia].
    rewrite decide_True by done. by apply list_elem_of_singleton.
Qed.

(** The networkx graph has no edge exactly when [edge_index] is empty. *)
Lemma edges_nil_edge_index_nil num_nodes positions features :
  edges (build_graph num_nodes positions features
           (build_adjacency num_nodes positions)) = []
  ↔ edge_index_of num_nodes (build_adjacency num_nodes positions) = [].
Proof.
  set (adjacency := build_adjacency num_nodes positions).
  split; intros Hnil; apply elem_of_nil_inv.
  - intros [i j] Hin. apply elem_of_edge_index in Hin as (Hi & Hj & Hadj).
    destruct (build_adjacency_get2_one _ _ _ _ Hadj) as (Hne & _ & _).
    assert ((i `min` j, i `max` j, 1%float)
            ∈ edges (build_graph num_nodes positions features adjacency))
      as Hin; [|rewrite Hnil in Hin; by inv Hin].
    apply elem_of_edges. split_and!; [lia|lia| |done].
    destruct (decide (i < j)).
    + by rewrite Nat.min_l, Nat.max_r by lia.
    + rewrite Nat.min_r, Nat.max_l by lia.
      unfold adjacency. by rewrite build_adjacency_get2_sym.
  - intros [[i j] w] Hin. apply elem_of_edges in Hin as (Hij & Hj & Hadj & _).
    assert ((i, j) ∈ edge_index_of num_nodes adjacency) as Hin;
      [|rewrite Hnil in Hin; by inv Hin].
    apply elem_of_edge_index. split_and!; [lia|done|done].
Qed.

(** *** The epoch loop *)

Lemma optimizer_steps_app t1 t2 :
  optimizer_steps (t1 ++ t2) = optimizer_steps t1 + optimizer_steps t2.
Proof.
  induction t1 as [|ev t1 IH]; [done|]. destruct ev; simpl; rewrite ?IH; done.
Qed.

Section Cycle.
Context {tensor model generator : Type} `{!TorchOps tensor}.
Variable T : torch (tensor := tensor) (model := model) (generator := generator).

Lemma epoch_body_spec num_nodes adjacency features edge_index st epoch :
  let r := epoch_body T num_nodes adjacency features edge_index st epoch in
  r.2 = sampling_status adjacency num_nodes (length edge_index) [epoch]
          (st_draws st)
  ∧ ∃ evs,
      st_trace r.1 = st_trace st ++ evs ∧ Forall epoch_event evs
      ∧ match r.2 with
        | Ok =>
            optimizer_steps evs = 1
            ∧ (∃ l, st_losses r.1 = st_losses st ++ [l])
            ∧ ∃ neg_samples,
                negative_sampling adjacency num_nodes (length edge_index) []
                  (st_draws st) = Return (neg_samples, st_draws r.1)
        | _ => optimizer_steps evs = 0 ∧ st_losses r.1 = st_losses st
        end.
Proof.
  unfold epoch_body. simpl.
  destruct (forward T true (st_model st) features edge_index (st_generator st))
    as [embeddings generator'].
  destruct (negative_sampling adjacency num_nodes (length edge_index) []
              (st_draws st)) as [[neg_samples draws']|e|]; simpl.
  - split; [done|].
    eexists. split; [by rewrite <- app_assoc|]. split.
    + repeat constructor. case_decide; repeat constructor.
    + split_and!; [by case_decide|by eexists|by eexists].
  - split; [done|]. exists [ForwardPass true]. repeat constructor.
  - split; [done|]. exists [ForwardPass true]. repeat constructor.
Qed.

Lemma training_cycle_spec num_nodes adjacency features edge_index epochs st :
  let r := training_cycle T num_nodes adjacency features edge_index epochs st in
  r.2 = sampling_status adjacency num_nodes (length edge_index) epochs
          (st_draws st)
  ∧ ∃ evs,
      st_trace r.1 = st_trace st ++ evs ∧ Forall epoch_event evs
      ∧ (r.2 = Ok →
         optimizer_steps evs = length epochs
         ∧ ∃ ls, st_losses r.1 = st_losses st ++ ls
                 ∧ length ls = length epochs).
Proof.
  revert st. induction epochs as [|epoch epochs IH]; intros st; simpl.
  { split; [done|]. exists []. rewrite app_nil_r. split_and!; [done|done|].
    intros _. split; [done|]. exists []. by rewrite app_nil_r. }
  pose proof (epoch_body_spec num_nodes adjacency features edge_index st epoch)
    as (Hs & evs & Htr & Hev & Hok). simpl in Hs, Htr, Hok.
  destruct (epoch_body T num_nodes adjacency features edge_index st epoch)
    as [st1 s1]. simpl in *.
  destruct (negative_sampling adjacency num_nodes (length edge_index) []
              (st_draws st)) as [[neg_samples draws']|e|] eqn:Hneg;
    subst s1; simpl.
  - destruct Hok as (Hsteps & [l Hl] & neg' & Hret). simplify_eq.
    destruct (IH st1) as (Hs' & evs' & Htr' & Hev' & Hok'). simpl in *.
    split; [done|]. exists (evs ++ evs').
    split_and!; [by rewrite Htr', Htr, <- app_assoc|by apply Forall_app|].
    intros Hfin. destruct (Hok' Hfin) as (Hsteps' & ls & Hls & Hlen).
    split; [rewrite optimizer_steps_app; lia|].
    exists (l :: ls). split; [|simpl; lia].
    by rewrite Hls, Hl, <- app_assoc.
  - split; [done|]. exists evs. split_and!; done.
  - split; [done|]. exists evs. split_and!; done.
Qed.

Lemma epoch_event_train_event ev : epoch_event ev → train_event ev.
Proof. by intros []. Qed.

(** The outcome of [train_embeddings], case by case. Which case applies is
    decided by the graph and by the draws of the sampler. *)
Lemma train_embeddings_outcome num_nodes num_epochs R :
  let adjacency := build_adjacency num_nodes (map (scale 1000) (rand R)) in
  let edge_index := edge_index_of num_nodes adjacency in
  let r := train_embeddings T num_nodes num_epochs R in
  Forall train_event r.1
  ∧ if decide (length edge_index = 0) then
      r = ([Print "=== Start GraphSAGE training ===";
            Print "Error: The image has no edges!"], Return PyNone)
    else
      match sampling_status adjacency num_nodes (length edge_index)
              (seq 0 num_epochs) (draws R) with
      | Ok =>
          optimizer_steps r.1 = num_epochs
          ∧ if decide (num_epochs = 0)
            then r.2 = Raise (IndexError "list index out of range")
            else ∃ e b g,
                r.2 = Return (PyTuple [PyArray e; PyVector b; PyGraph g])
      | Failed e => r.2 = Raise e
      | Spinning => r.2 = Running
      end.
Proof.
  cbv beta iota zeta delta [train_embeddings generate_uav_network].
  set (adjacency := build_adjacency num_nodes (map (scale 1000) (rand R))).
  set (edge_index := edge_index_of num_nodes adjacency).
  destruct (decide (length edge_index = 0)) as [Hnil|Hedges].
  { split; [|done]. repeat constructor; done. }
  set (st0 := TrainState _ _ _ _ _).
  pose proof (training_cycle_spec num_nodes adjacency
                (fit_transform T (uniform R)) edge_index (seq 0 num_epochs) st0)
    as (Hs & evs & Htr & Hev & Hok). simpl in Hs, Htr, Hok.
  destruct (training_cycle T num_nodes adjacency (fit_transform T (uniform R))
              edge_index (seq 0 num_epochs) st0) as [st s]. simpl in *.
  rewrite <- Hs.
  assert (Forall train_event (st_trace st)) as Htrace.
  { rewrite Htr. apply Forall_cons. split; [by split|].
    eapply Forall_impl; [done|]. apply epoch_event_train_event. }
  destruct s as [|e|]; [|done|done].
  destruct (Hok eq_refl) as (Hsteps & ls & Hls & Hlen).
  rewrite length_seq in Hsteps, Hlen.
  destruct (forward T false (st_model st) (fit_transform T (uniform R))
              edge_index (st_generator st)) as [final generator'].
  destruct (last (st_losses st)) as [final_loss|] eqn:Hlast; simpl.
  - split_and!.
    + rewrite <- app_assoc. apply Forall_app. split; [done|].
      repeat constructor; done.
    + rewrite !optimizer_steps_app, Htr. simpl. lia.
    + rewrite decide_False; [by eexists _, _, _|].
      intros ->. destruct ls; [|done]. by rewrite Hls in Hlast.
  - split_and!.
    + apply Forall_app. split; [done|]. repeat constructor; done.
    + rewrite !optimizer_steps_app, Htr. simpl. lia.
    + apply last_None in Hlast. rewrite Hls in Hlast.
      destruct ls; [|done]. simpl in Hlen. by rewrite decide_True by lia.
Qed.

End Cycle.

(** *** C1 *)

Lemma accepted_K2 draws : accepted K2 2 draws = [].
Proof.
  induction draws as [|[r_i r_j] draws IH]; [done|].
  rewrite accepted_cons, IH, app_nil_r. unfold accept. cbn [fst snd].
  assert (r_i `mod` 2 < 2) as Hi by (apply Nat.mod_upper_bound; lia).
  assert (r_j `mod` 2 < 2) as Hj by (apply Nat.mod_upper_bound; lia).
  destruct (r_i `mod` 2) as [|[|?]], (r_j `mod` 2) as [|[|?]];
    try lia; vm_compute; reflexivity.
Qed.

(** The claim fails on the code. On the complete graph on two nodes, with
    [num_pos] the number of its directed edges, no retry budget bounds the
    loop: however long the stream of draws, the loop is still running at its
    end. It has neither returned nor raised. *)
Lemma dense_graph_sampling_never_ends :
  ¬ ∃ budget : nat, ∀ draws : list (nat * nat),
      budget ≤ length draws →
      negative_sampling K2 2 (length (edge_index_of 2 K2)) [] draws ≠ Running.
Proof.
  intros [budget Hbudget].
  apply (Hbudget (replicate budget (0, 1))); [by rewrite length_replicate|].
  apply negative_sampling_running; [lia|].
  rewrite accepted_K2. vm_compute. lia.
Qed.

(** C1 (amended). Negative sampling has no retry budget and no failure of
    its own: it never raises. At the end of a finite stream of draws it is
    still running exactly when the stream held fewer than [num_pos]
    acceptable pairs, and when it returns it returns the first [num_pos]
    acceptable pairs of the stream. *)
Theorem negative_sampling_ends_only_by_acceptance
    (adjacency : matrix) (num_nodes num_pos : nat) (draws : list (nat * nat)) :
  0 < num_nodes →
  (negative_sampling adjacency num_nodes num_pos [] draws = Running
   ↔ length (accepted adjacency num_nodes draws) < num_pos)
  ∧ (∀ e, negative_sampling adjacency num_nodes num_pos [] draws ≠ Raise e)
  ∧ (∀ neg_samples rest,
       negative_sampling adjacency num_nodes num_pos [] draws
       = Return (neg_samples, rest) →
       neg_samples = take num_pos (accepted adjacency num_nodes draws)
       ∧ suffix rest draws).
Proof.
  intros Hn.
  destruct (decide (length (accepted adjacency num_nodes draws) < num_pos))
    as [Hlt|Hge].
  - rewrite negative_sampling_running by (done || simpl; lia).
    split_and!; [done|done|done].
  - destruct (negative_sampling_returns adjacency num_nodes num_pos [] draws)
      as (rest & Hret & Hsuf); [done|simpl; lia|simpl; lia|].
    rewrite Hret. simpl. rewrite Nat.sub_0_r.
    split_and!; [split; [done|lia]|done|].
    intros neg_samples rest' Heq. by simplify_eq.
Qed.

Lemma negative_sampling_ends_witness :
  0 < 3
  ∧ (negative_sampling (build_adjacency 3 (map (scale 1000) rand3)) 3 2 []
       (draws run3) = Running
     ↔ length (accepted (build_adjacency 3 (map (scale 1000) rand3)) 3
                 (draws run3)) < 2)
  ∧ (∀ e, negative_sampling (build_adjacency 3 (map (scale 1000) rand3)) 3 2 []
            (draws run3) ≠ Raise e)
  ∧ (∀ neg_samples rest,
       negative_sampling (build_adjacency 3 (map (scale 1000) rand3)) 3 2 []
         (draws run3) = Return (neg_samples, rest) →
       neg_samples
       = take 2 (accepted (build_adjacency 3 (map (scale 1000) rand3)) 3
                   (draws run3))
       ∧ suffix rest (draws run3)).
Proof.
  split; [lia|].
  apply (negative_sampling_ends_only_by_acceptance
           (build_adjacency 3 (map (scale 1000) rand3)) 3 2 (draws run3)).
  lia.
Defined.

(** *** C3 *)

(** C3. With [num_pos] the number of directed edges, and a stream of draws
    that holds at least [num_pos] acceptable pairs, negative sampling returns
    exactly [num_pos] pairs: the first acceptable pairs of the stream in
    order, repeats kept. Every returned pair [(i, j)] is a pair of node
    indices with [i ≠ j] that is not an edge. *)
Theorem negative_samples_are_non_edges
    (adjacency : matrix) (num_nodes : nat) (draws : list (nat * nat)) :
  length (edge_index_of num_nodes adjacency)
  ≤ length (accepted adjacency num_nodes draws) →
  ∃ neg_samples rest,
    negative_sampling adjacency num_nodes
      (length (edge_index_of num_nodes adjacency)) [] draws
    = Return (neg_samples, rest)
    ∧ length neg_samples = length (edge_index_of num_nodes adjacency)
    ∧ neg_samples
      = take (length (edge_index_of num_nodes adjacency))
             (accepted adjacency num_nodes draws)
    ∧ ∀ i j, (i, j) ∈ neg_samples →
             i ≠ j ∧ i < num_nodes ∧ j < num_nodes
             ∧ get2 adjacency i j = 0%Z
             ∧ (i, j) ∉ edge_index_of num_nodes adjacency.
Proof.
  intros Hge. set (num_pos := length (edge_index_of num_nodes adjacency)) in *.
  destruct (decide (num_nodes = 0)) as [->|Hn].
  { assert (num_pos = 0) as -> by done.
    exists [], draws. rewrite negative_sampling_done by (simpl; lia).
    split_and!; [done|done|done|]. intros i j Hin. by inv Hin. }
  destruct (negative_sampling_returns adjacency num_nodes num_pos [] draws)
    as (rest & Hret & _); [lia|simpl; lia|simpl; lia|].
  simpl in Hret. rewrite Nat.sub_0_r in Hret.
  eexists _, rest. split_and!; [done| |done|].
  - rewrite length_take. lia.
  - intros i j Hin. apply subseteq_take in Hin.
    apply accepted_valid in Hin as (Hne & Hi & Hj & Hadj); [|lia].
    split_and!; [done|done|done|done|].
    intros Hedge. apply elem_of_edge_index in Hedge as (_ & _ & Hone). lia.
Qed.

Lemma negative_samples_witness :
  length (edge_index_of 3 (build_adjacency 3 (map (scale 1000) rand3)))
  ≤ length (accepted (build_adjacency 3 (map (scale 1000) rand3)) 3
              [(1, 2); (1, 2); (0, 0); (2, 0)])
  ∧ ∃ neg_samples rest,
      negative_sampling (build_adjacency 3 (map (scale 1000) rand3)) 3
        (length (edge_index_of 3 (build_adjacency 3 (map (scale 1000) rand3))))
        [] [(1, 2); (1, 2); (0, 0); (2, 0)]
      = Return (neg_samples, rest)
      ∧ length neg_samples
        = length (edge_index_of 3 (build_adjacency 3 (map (scale 1000) rand3)))
      ∧ neg_samples
        = take (length (edge_index_of 3
                          (build_adjacency 3 (map (scale 1000) rand3))))
               (accepted (build_adjacency 3 (map (scale 1000) rand3)) 3
                  [(1, 2); (1, 2); (0, 0); (2, 0)])
      ∧ ∀ i j, (i, j) ∈ neg_samples →
               i ≠ j ∧ i < 3 ∧ j < 3
               ∧ get2 (build_adjacency 3 (map (scale 1000) rand3)) i j = 0%Z
               ∧ (i, j) ∉ edge_index_of 3
                            (build_adjacency 3 (map (scale 1000) rand3)).
Proof.
  split; [vm_compute; lia|].
  apply (negative_samples_are_non_edges
           (build_adjacency 3 (map (scale 1000) rand3)) 3
           [(1, 2); (1, 2); (0, 0); (2, 0)]).
  vm_compute. lia.
Defined.

(** The same pair can be drawn twice: sampling is with replacement. *)
Example negative_sampling_repeats :
  negative_sampling (build_adjacency 3 (map (scale 1000) rand3)) 3 2 []
    [(1, 2); (1, 2); (0, 0); (2, 0)]
  = Return ([(1, 2); (1, 2)], [(0, 0); (2, 0)]).
Proof. vm_compute. reflexivity. Qed.

(** *** C8, C9, C10 *)

(** The claim (C8) fails on the code. In this run the loss of the second
    epoch is NaN. Nothing notices: the optimizer step of that epoch is
    applied, a third epoch runs on the corrupted parameters, and the call
    returns its tuple, the embeddings in it being NaN. *)
Lemma nan_loss_training_goes_on :
  ∃ biases G,
    train_embeddings nan_torch 3 3 run3
    = ([Print "=== Start GraphSAGE training ===";
        ForwardPass true; OptimizerStep;
        ForwardPass true; OptimizerStep;
        ForwardPass true; OptimizerStep;
        ForwardPass false;
        PrintFinalLoss nan; PlotLosses [0.5%float; nan; nan];
        SaveFig "training_loss.png"],
       Return (PyTuple [PyArray [[nan]]; biases; G])).
Proof. eexists _, _. vm_compute. reflexivity. Qed.

Section Claims.
Context {tensor model generator : Type} `{!TorchOps tensor}.
Variable T : torch (tensor := tensor) (model := model) (generator := generator).

Lemma train_event_not_failed trace :
  Forall train_event trace → Print "Training failed" ∉ trace.
Proof.
  intros Hall Hin. rewrite Forall_forall in Hall.
  by destruct (Hall _ Hin) as [Hne _].
Qed.

Lemma train_embeddings_edgeless num_nodes num_epochs R :
  edges (generate_uav_network num_nodes 1000 (rand R) (uniform R)).2 = [] →
  train_embeddings T num_nodes num_epochs R
  = ([Print "=== Start GraphSAGE training ===";
      Print "Error: The image has no edges!"], Return PyNone).
Proof.
  intros Hedges.
  apply (proj1 (edges_nil_edge_index_nil num_nodes
                  (map (scale 1000) (rand R)) (uniform R))) in Hedges.
  pose proof (train_embeddings_outcome T num_nodes num_epochs R) as [_ Hout].
  cbv zeta in Hout. rewrite Hedges in Hout. exact Hout.
Qed.

(** C8 (amended). A non-finite loss or gradient is not detected. Whether
    [train_embeddings] returns, raises or keeps running is decided by the
    graph and by the draws of the negative sampler alone; no value torch
    computes enters it. On a graph with an edge, when every epoch gets its
    negative samples, all [num_epochs] optimizer steps are applied and the
    call returns its tuple (or raises [IndexError] on the empty list of
    losses when [num_epochs] is 0). *)
Theorem training_outcome_ignores_loss_values
    (num_nodes num_epochs : nat) (R : randomness) :
  let adjacency := build_adjacency num_nodes (map (scale 1000) (rand R)) in
  let edge_index := edge_index_of num_nodes adjacency in
  let r := train_embeddings T num_nodes num_epochs R in
  if decide (length edge_index = 0) then r.2 = Return PyNone
  else
    match sampling_status adjacency num_nodes (length edge_index)
            (seq 0 num_epochs) (draws R) with
    | Ok =>
        optimizer_steps r.1 = num_epochs
        ∧ if decide (num_epochs = 0)
          then r.2 = Raise (IndexError "list index out of range")
          else ∃ e b g,
              r.2 = Return (PyTuple [PyArray e; PyVector b; PyGraph g])
    | Failed e => r.2 = Raise e
    | Spinning => r.2 = Running
    end.
Proof.
  pose proof (train_embeddings_outcome T num_nodes num_epochs R) as [_ Hout].
  cbv zeta in *. case_decide; [by rewrite Hout|done].
Qed.

(** C9. If the generated graph has no edge, [train_embeddings] prints the
    error and returns [None]: no forward pass is run, no optimizer step is
    applied, and no embeddings are produced. *)
Theorem edgeless_graph_is_never_trained
    (num_nodes num_epochs : nat) (R : randomness) :
  edges (generate_uav_network num_nodes 1000 (rand R) (uniform R)).2 = [] →
  train_embeddings T num_nodes num_epochs R
  = ([Print "=== Start GraphSAGE training ===";
      Print "Error: The image has no edges!"], Return PyNone)
  ∧ optimizer_steps (train_embeddings T num_nodes num_epochs R).1 = 0
  ∧ ∀ training,
      ForwardPass training ∉ (train_embeddings T num_nodes num_epochs R).1.
Proof.
  intros Hedges. rewrite train_embeddings_edgeless by done.
  split_and!; [done|done|]. intros training Hin. simpl in Hin.
  repeat (apply elem_of_cons in Hin as [Hin|Hin]; [done|]). by inv Hin.
Qed.

(** C10. On an edgeless graph [train_embeddings] returns the single value
    [None]; whenever it returns, it returns either that or a 3-tuple whose
    first item is an array. Unpacking [None] raises. So on an edgeless graph
    the entry point ends in its catch-all handler, and on no run does it
    print the failure message of its [embeddings is None] branch. *)
Theorem none_result_breaks_unpacking
    (num_nodes num_epochs : nat) (R : randomness) :
  (edges (generate_uav_network num_nodes 1000 (rand R) (uniform R)).2 = [] →
   (train_embeddings T num_nodes num_epochs R).2 = Return PyNone)
  ∧ (∀ v, (train_embeddings T num_nodes num_epochs R).2 = Return v →
          v = PyNone
          ∨ ∃ e b g, v = PyTuple [PyArray e; PyVector b; PyGraph g])
  ∧ (∃ msg, unpack3 PyNone = Raise (TypeError msg))
  ∧ (edges (generate_uav_network 30 1000 (rand R) (uniform R)).2 = [] →
     main T R = ([Print "=== Start GraphSAGE training ===";
                  Print "Error: The image has no edges!";
                  Print "Error during training"], Return ()))
  ∧ Print "Training failed" ∉ (main T R).1.
Proof.
  split_and!.
  - intros Hedges. by rewrite train_embeddings_edgeless.
  - intros v Hv.
    pose proof (train_embeddings_outcome T num_nodes num_epochs R) as [_ Hout].
    cbv zeta in Hout. case_decide.
    + rewrite Hout in Hv. left. by simplify_eq/=.
    + destruct (sampling_status _ _ _ _ _).
      * destruct Hout as [_ Hout]. case_decide; [congruence|].
        destruct Hout as (e & b & g & Hr). right. exists e, b, g. congruence.
      * congruence.
      * congruence.
  - by eexists.
  - intros Hedges. unfold main. by rewrite train_embeddings_edgeless.
  - pose proof (train_embeddings_outcome T 30 50 R) as [Hall Hout].
    cbv zeta in Hall, Hout. unfold main.
    destruct (train_embeddings T 30 50 R) as [trace result].
    cbn [fst snd] in *.
    apply train_event_not_failed in Hall.
    assert (Print "Training failed" ∉ trace ++ [Print "Error during training"])
      as Hhandler.
    { intros [?|Hin]%elem_of_app; [done|].
      apply list_elem_of_singleton in Hin. done. }
    case_decide.
    + simplify_eq/=. done.
    + destruct (sampling_status _ _ _ _ _).
      * destruct Hout as [_ (e & b & g & ->)]. simpl.
        intros [?|Hin]%elem_of_app; [done|].
        repeat (apply elem_of_cons in Hin as [Hin|Hin]; [done|]). by inv Hin.
      * by subst result.
      * by subst result.
Qed.

End Claims.

Lemma edgeless_graph_witness :
  edges (generate_uav_network 2 1000 (rand far2) (uniform far2)).2 = []
  ∧ train_embeddings nan_torch 2 50 far2
    = ([Print "=== Start GraphSAGE training ===";
        Print "Error: The image has no edges!"], Return PyNone)
  ∧ optimizer_steps (train_embeddings nan_torch 2 50 far2).1 = 0
  ∧ ∀ training,
      ForwardPass training ∉ (train_embeddings nan_torch 2 50 far2).1.
Proof.
  split; [vm_compute; reflexivity|].
  apply (edgeless_graph_is_never_trained nan_torch 2 50 far2).
  vm_compute. reflexivity.
Defined.

(** Thirty nodes can be out of range of one another: the entry point itself
    can meet an edgeless graph. *)
Example main_on_edgeless_graph :
  edges (generate_uav_network 30 1000 (rand far30) (uniform far30)).2 = []
  ∧ main nan_torch far30
    = ([Print "=== Start GraphSAGE training ===";
        Print "Error: The image has no edges!";
        Print "Error during training"], Return ()).
Proof. split; vm_compute; reflexivity. Qed.

End Trainer.


(** ** The edge list and the graph *)

Module EdgeList.
Import Matrix Generator Trainer.

Lemma length_list_bind {A B} (g : A → list B) (l : list A) :
  length (l ≫= g) = sum_list_with (λ x, length (g x)) l.
Proof.
  induction l as [|x l IH]; [done|].
  change ((x :: l) ≫= g) with (g x ++ (l ≫= g)).
  rewrite length_app, IH. done.
Qed.

Lemma sum_list_with_plus {A} (g h : A → nat) (l : list A) :
  sum_list_with (λ x, g x + h x) l = sum_list_with g l + sum_list_with h l.
Proof. induction l as [|x l IH]; simpl; lia. Qed.

Lemma sum_list_with_ext_in {A} (g h : A → nat) (l : list A) :
  (∀ x, x ∈ l → g x = h x) → sum_list_with g l = sum_list_with h l.
Proof.
  induction l as [|x l IH]; intros Hext; [done|]. simpl.
  rewrite (Hext x), IH; [done| |by left].
  intros y Hy. apply Hext. by right.
Qed.

(** A symmetric table with a zero diagonal sums, over the full square, to
    twice its sum over the pairs [i < j]. *)
Lemma square_sum_twice_triangle (f : nat → nat → nat) (m : nat) :
  (∀ i j, f i j = f j i) → (∀ i, f i i = 0) →
  sum_list_with (λ i, sum_list_with (f i) (seq 0 m)) (seq 0 m)
  = 2 * sum_list_with
          (λ i, sum_list_with (f i) (seq (i + 1) (m - (i + 1)))) (seq 0 m).
Proof.
  intros Hsym Hdiag. induction m as [|m IH]; [done|].
  rewrite !seq_S, !sum_list_with_app. simpl.
  rewrite (sum_list_with_ext_in
             (λ i, sum_list_with (f i) (seq 0 m ++ [m]))
             (λ i, sum_list_with (f i) (seq 0 m) + f i m)).
  2:{ intros i _. rewrite sum_list_with_app. simpl. lia. }
  rewrite (sum_list_with_ext_in
             (λ i, sum_list_with (f i) (seq (i + 1) (S m - (i + 1))))
             (λ i, sum_list_with (f i) (seq (i + 1) (m - (i + 1))) + f i m)).
  2:{ intros i Hi. apply elem_of_seq in Hi.
      replace (S m - (i + 1)) with (S (m - (i + 1))) by lia.
      rewrite seq_S, sum_list_with_app. simpl.
      replace (i + 1 + (m - (i + 1))) with m by lia. lia. }
  rewrite !sum_list_with_plus, IH, sum_list_with_app.
  replace (S m - (m + 1)) with 0 by lia. simpl. rewrite Hdiag.
  rewrite (sum_list_with_ext_in (f m) (λ i, f i m)) by (intros; apply Hsym).
  lia.
Qed.

Definition linked (adjacency : matrix) (i j : nat) : nat :=
  if decide (get2 adjacency i j = 1%Z) then 1 else 0.

Lemma length_edge_index num_nodes adjacency :
  length (edge_index_of num_nodes adjacency)
  = sum_list_with (λ i, sum_list_with (linked adjacency i) (seq 0 num_nodes))
                  (seq 0 num_nodes).
Proof.
  unfold edge_index_of. rewrite length_list_bind.
  apply sum_list_with_ext_in. intros i _. rewrite length_list_bind.
  apply sum_list_with_ext_in. intros j _. unfold linked. by case_decide.
Qed.

Lemma length_edges num_nodes positions features adjacency :
  length (edges (build_graph num_nodes positions features adjacency))
  = sum_list_with
      (λ i, sum_list_with (linked adjacency i)
              (seq (i + 1) (num_nodes - (i + 1))))
      (seq 0 num_nodes).
Proof.
  simpl. rewrite length_list_bind.
  apply sum_list_with_ext_in. intros i _. rewrite length_list_bind.
  apply sum_list_with_ext_in. intros j _. unfold linked. by case_decide.
Qed.

(** X1. For every generated graph, [edge_index] holds every link in both
    directions and no pair [(i, i)], and its length, the number of positive
    pairs of an epoch, is twice the number of edges of the networkx graph. *)
Theorem edge_index_is_symmetric_and_twice_the_edges
    (num_nodes : nat) (area_size : float)
    (rand : list position) (features : list feature) :
  let r := generate_uav_network num_nodes area_size rand features in
  let edge_index := edge_index_of num_nodes r.1.1.2 in
  (∀ i j, (i, j) ∈ edge_index ↔ (j, i) ∈ edge_index)
  ∧ (∀ i, (i, i) ∉ edge_index)
  ∧ length edge_index = 2 * length (edges r.2).
Proof.
  cbv zeta. unfold generate_uav_network. cbn [fst snd].
  set (positions := map (scale area_size) rand).
  split_and!.
  - intros i j. rewrite !elem_of_edge_index.
    rewrite (build_adjacency_get2_sym num_nodes positions i j). tauto.
  - intros i Hin. apply elem_of_edge_index in Hin as (_ & _ & Hadj).
    by apply build_adjacency_get2_one in Hadj as [? _].
  - rewrite length_edge_index, length_edges.
    apply square_sum_twice_triangle.
    + intros i j. unfold linked.
      by rewrite (build_adjacency_get2_sym num_nodes positions i j).
    + intros i. unfold linked. case_decide as Hadj; [|done].
      by apply build_adjacency_get2_one in Hadj as [? _].
Qed.

End EdgeList.

(** ** Whole runs of [train_embeddings] and of the entry point *)

Module Runs.
Import Matrix Generator Sampler Loss Trainer.

(** The epoch numbers of the progress lines of a trace, in order. *)
Definition printed_epochs (trace : list event) : list nat :=
  omap (λ ev, match ev with PrintEpoch epoch _ => Some epoch | _ => None end)
       trace.

(** The epoch numbers the loop prints a progress line for:
    [if (epoch + 1) % 10 == 0]. *)
Definition progress (epochs : list nat) : list nat :=
  epoch ← epochs; if decide ((epoch + 1) `mod` 10 = 0) then [epoch + 1] else [].

(** Two nodes 125 apart and one epoch: a complete graph. *)
Definition near2 : randomness (model := nat) (generator := unit) :=
  {| rand := [(0, 0, 0); (0.125, 0, 0)]%float;
     uniform := [(1, 0.5, 0.125); (1.5, 0.875, 0.5)]%float;
     draws := [(0, 1); (1, 0); (3, 2); (1, 1)];
     randn := [1; 2]%float;
     model0 := 0; generator0 := () |}.

(** Three nodes, one edge, ten epochs, every draw acceptable. *)
Definition run10 : randomness (model := nat) (generator := unit) :=
  {| rand := rand3; uniform := features3;
     draws := replicate 20 (0, 2);
     randn := [1; 2; 3]%float;
     model0 := 0; generator0 := () |}.

(** *** The sampler and the stream of draws *)

Lemma accepted_app adjacency num_nodes draws1 draws2 :
  accepted adjacency num_nodes (draws1 ++ draws2)
  = accepted adjacency num_nodes draws1 ++ accepted adjacency num_nodes draws2.
Proof. apply omap_app. Qed.

Lemma negative_sampling_consumes adjacency num_nodes num_pos neg_samples draws :
  0 < num_nodes →
  length neg_samples ≤ num_pos →
  num_pos ≤ length neg_samples + length (accepted adjacency num_nodes draws) →
  ∃ used rest,
    draws = used ++ rest
    ∧ negative_sampling adjacency num_nodes num_pos neg_samples draws
      = Return (neg_samples ++ accepted adjacency num_nodes used, rest)
    ∧ length neg_samples + length (accepted adjacency num_nodes used) = num_pos
    ∧ ∀ k, k < length used →
           length neg_samples
           + length (accepted adjacency num_nodes (take k used)) < num_pos.
Proof.
  intros Hn. revert neg_samples.
  induction draws as [|d draws IH]; intros neg_samples Hle Hge.
  - exists [], []. simpl in *. rewrite decide_False by lia.
    rewrite app_nil_r. split_and!; [done|done|lia|]. intros k Hk. lia.
  - destruct (decide (length neg_samples < num_pos)) as [Hlt|Hnlt].
    + rewrite negative_sampling_step by done.
      rewrite accepted_cons, length_app in Hge.
      destruct (IH (neg_samples ++ option_list (accept adjacency num_nodes d)))
        as (used & rest & -> & -> & Hlen & Hpre).
      { rewrite length_app. destruct (accept _ _ d); simpl; lia. }
      { rewrite length_app. lia. }
      exists (d :: used), rest. rewrite length_app in Hlen.
      split_and!; [done| | |].
      * by rewrite accepted_cons, app_assoc.
      * rewrite accepted_cons, length_app. lia.
      * intros [|k] Hk; [simpl; lia|]. simpl in Hk.
        rewrite firstn_cons, accepted_cons, length_app.
        specialize (Hpre k ltac:(lia)). rewrite length_app in Hpre. lia.
    + exists [], (d :: draws). rewrite negative_sampling_done by lia.
      simpl. rewrite app_nil_r. split_and!; [done|done|lia|].
      intros k Hk. lia.
Qed.

(** X2. The sampler reads the stream of draws in order and stops at the
    draw that completes the batch: the draws it leaves unread are those after
    the [num_pos]-th acceptable one, the pairs it returns are the acceptable
    ones among those it read, and no shorter prefix would have been enough. *)
Theorem negative_sampling_reads_no_draw_too_many
    (adjacency : matrix) (num_nodes num_pos : nat) (draws : list (nat * nat)) :
  0 < num_nodes →
  num_pos ≤ length (accepted adjacency num_nodes draws) →
  ∃ used rest,
    draws = used ++ rest
    ∧ negative_sampling adjacency num_nodes num_pos [] draws
      = Return (accepted adjacency num_nodes used, rest)
    ∧ length (accepted adjacency num_nodes used) = num_pos
    ∧ ∀ k, k < length used →
           length (accepted adjacency num_nodes (take k used)) < num_pos.
Proof.
  intros Hn Hge.
  destruct (negative_sampling_consumes adjacency num_nodes num_pos [] draws)
    as (used & rest & Hdraws & Hret & Hlen & Hpre);
    [done|simpl; lia|simpl; lia|].
  exists used, rest. split_and!; [done|done|done|].
  intros k Hk. apply (Hpre k Hk).
Qed.

Lemma negative_sampling_reads_witness :
  0 < 3
  ∧ 2 ≤ length (accepted (build_adjacency 3 (map (scale 1000) rand3)) 3
                  (draws run3))
  ∧ ∃ used rest,
      draws run3 = used ++ rest
      ∧ negative_sampling (build_adjacency 3 (map (scale 1000) rand3)) 3 2 []
          (draws run3)
        = Return (accepted (build_adjacency 3 (map (scale 1000) rand3)) 3 used,
                  rest)
      ∧ length (accepted (build_adjacency 3 (map (scale 1000) rand3)) 3 used)
        = 2
      ∧ ∀ k, k < length used →
             length (accepted (build_adjacency 3 (map (scale 1000) rand3)) 3
                       (take k used)) < 2.
Proof.
  assert (0 < 3) as Hn by lia.
  assert (2 ≤ length (accepted (build_adjacency 3 (map (scale 1000) rand3)) 3
                        (draws run3))) as Hge by (vm_compute; lia).
  split; [exact Hn|]. split; [exact Hge|].
  exact (negative_sampling_reads_no_draw_too_many
           (build_adjacency 3 (map (scale 1000) rand3)) 3 2 (draws run3)
           Hn Hge).
Defined.

Lemma accepted_complete adjacency num_nodes draws :
  0 < num_nodes →
  (∀ i j, i < num_nodes → j < num_nodes → i ≠ j → get2 adjacency i j = 1%Z) →
  accepted adjacency num_nodes draws = [].
Proof.
  intros Hn Hall. induction draws as [|d draws IH]; [done|].
  rewrite accepted_cons, IH, app_nil_r. unfold accept.
  destruct (bool_decide_reflect (d.1 `mod` num_nodes ≠ d.2 `mod` num_nodes))
    as [Hne|]; [|done].
  rewrite Hall; [done| | |done]; apply Nat.mod_upper_bound; lia.
Qed.

(** *** Runs on any torch *)

Lemma progress_seq num_epochs :
  progress (seq 0 num_epochs)
  = map (λ k, 10 * (k + 1)) (seq 0 (num_epochs `div` 10)).
Proof.
  unfold progress. induction num_epochs as [|n IH]; [done|].
  rewrite seq_S, bind_app, IH.
  assert (∀ (f : nat → list nat) x, [x] ≫= f = f x) as ->
    by (intros; apply app_nil_r).
  pose proof (Nat.div_mod_eq n 10). pose proof (Nat.div_mod_eq (S n) 10).
  pose proof (Nat.mod_upper_bound n 10).
  pose proof (Nat.mod_upper_bound (S n) 10).
  replace (0 + n + 1) with (S n) by lia.
  destruct (decide (S n `mod` 10 = 0)) as [Hz|Hnz].
  - replace (S n `div` 10) with (S (n `div` 10)) by lia.
    rewrite seq_S, map_app. cbn [map]. do 2 f_equal. lia.
  - rewrite app_nil_r. f_equal. f_equal. lia.
Qed.

Lemma printed_epochs_app t1 t2 :
  printed_epochs (t1 ++ t2) = printed_epochs t1 ++ printed_epochs t2.
Proof. apply omap_app. Qed.

Section AnyTorch.
Context {tensor model generator : Type} `{!TorchOps tensor}.
Variable T : torch (tensor := tensor) (model := model) (generator := generator).

Lemma training_cycle_progress num_nodes adjacency features edge_index epochs st :
  let r := training_cycle T num_nodes adjacency features edge_index epochs st in
  r.2 = Ok →
  printed_epochs (st_trace r.1)
  = printed_epochs (st_trace st) ++ progress epochs.
Proof.
  revert st. induction epochs as [|epoch epochs IH]; intros st; cbv zeta.
  { intros _. cbn. by rewrite app_nil_r. }
  cbn [training_cycle]. unfold epoch_body.
  destruct (forward T true (st_model st) features edge_index (st_generator st))
    as [embeddings generator'].
  destruct (negative_sampling adjacency num_nodes (length edge_index) []
              (st_draws st)) as [[neg_samples draws']|e|]; [|done|done].
  intros Hok. rewrite (IH _ Hok). cbn [st_trace].
  change (progress (epoch :: epochs))
    with ((if decide ((epoch + 1) `mod` 10 = 0) then [epoch + 1] else [])
          ++ progress epochs).
  destruct (decide ((epoch + 1) `mod` 10 = 0));
    rewrite !printed_epochs_app; simpl; rewrite <- ?app_assoc;
    by rewrite ?app_nil_r.
Qed.

Lemma train_embeddings_trained num_nodes num_epochs R st :
  let adjacency := build_adjacency num_nodes (map (scale 1000) (rand R)) in
  let edge_index := edge_index_of num_nodes adjacency in
  let features := fit_transform T (uniform R) in
  edge_index ≠ [] →
  training_cycle T num_nodes adjacency features edge_index (seq 0 num_epochs)
    (TrainState (model0 R) (generator0 R) (draws R) []
                [Print "=== Start GraphSAGE training ==="])
  = (st, Ok) →
  train_embeddings T num_nodes num_epochs R
  = match last (st_losses st) with
    | None => (st_trace st ++ [ForwardPass false],
               Raise (IndexError "list index out of range"))
    | Some final_loss =>
        ((st_trace st ++ [ForwardPass false])
           ++ [PrintFinalLoss final_loss; PlotLosses (st_losses st);
               SaveFig "training_loss.png"],
         Return (PyTuple
           [PyArray (numpy T (forward T false (st_model st) features
                                edge_index (st_generator st)).1);
            PyVector (map (λ z, (z * 0.1)%float) (randn R));
            PyGraph (build_graph num_nodes (map (scale 1000) (rand R))
                       (uniform R) adjacency)]))
    end.
Proof.
  intros adjacency edge_index features Hedges Hcycle.
  cbv beta iota zeta delta [train_embeddings generate_uav_network].
  fold adjacency. fold edge_index. fold features.
  rewrite decide_False by (by destruct edge_index).
  rewrite Hcycle.
  destruct (forward T false (st_model st) features edge_index
              (st_generator st)) as [final generator'].
  by destruct (last (st_losses st)).
Qed.

Lemma edges_edge_index num_nodes
    (R : randomness (model := model) (generator := generator)) :
  edges (generate_uav_network num_nodes 1000 (rand R) (uniform R)).2 ≠ [] →
  edge_index_of num_nodes
    (build_adjacency num_nodes (map (scale 1000) (rand R))) ≠ [].
Proof.
  intros Hedges Hnil. apply Hedges.
  by apply (edges_nil_edge_index_nil num_nodes (map (scale 1000) (rand R))
              (uniform R)).
Qed.

(** X3. On a graph with an edge, [train_embeddings] with [num_epochs = 0]
    raises [IndexError]: the loop body never runs, the evaluation forward
    pass is made, and [losses[-1]] is read from the empty list of losses. No
    optimizer step is applied and no tuple is returned. *)
Theorem zero_epochs_raise_index_error (num_nodes : nat) (R : randomness) :
  edges (generate_uav_network num_nodes 1000 (rand R) (uniform R)).2 ≠ [] →
  train_embeddings T num_nodes 0 R
  = ([Print "=== Start GraphSAGE training ==="; ForwardPass false],
     Raise (IndexError "list index out of range")).
Proof.
  intros Hedges. apply edges_edge_index in Hedges.
  by rewrite (train_embeddings_trained num_nodes 0 R _ Hedges eq_refl).
Qed.

(** X4. On a complete graph of at least two nodes, [train_embeddings] with
    at least one epoch never returns and never raises, whatever the random
    draws are: the first epoch stays in the sampling loop. *)
Theorem complete_graph_training_never_returns
    (num_nodes num_epochs : nat) (R : randomness) :
  2 ≤ num_nodes → 0 < num_epochs →
  (∀ i j, i < num_nodes → j < num_nodes → i ≠ j →
     get2 (generate_uav_network num_nodes 1000 (rand R) (uniform R)).1.1.2 i j
     = 1%Z) →
  (train_embeddings T num_nodes num_epochs R).2 = Running.
Proof.
  intros Hn Hne Hall. cbn [generate_uav_network fst snd] in Hall.
  pose proof (train_embeddings_outcome T num_nodes num_epochs R) as [_ Hout].
  cbv zeta in Hout.
  set (adjacency := build_adjacency num_nodes (map (scale 1000) (rand R))) in *.
  assert ((0, 1) ∈ edge_index_of num_nodes adjacency) as Hin.
  { apply elem_of_edge_index. split_and!; [lia|lia|]. apply Hall; lia. }
  destruct (decide (length (edge_index_of num_nodes adjacency) = 0))
    as [Hnil|Hedges].
  { destruct (edge_index_of num_nodes adjacency); [by inv Hin|done]. }
  destruct num_epochs as [|n]; [lia|]. cbn [seq sampling_status] in Hout.
  rewrite negative_sampling_running in Hout; [done|lia|].
  rewrite accepted_complete by (done || lia). simpl. lia.
Qed.

(** X5. A run of [train_embeddings] that trains to the end, step by step:
    after the start message come the events of the epochs, all forward
    passes of which are in training mode, with exactly [num_epochs]
    optimizer steps; then the one forward pass in evaluation mode, the final
    loss, the plot of the [num_epochs] recorded losses, whose last entry is
    the final loss, and the figure. The biases returned are the [randn]
    draws times 0.1 and the graph returned is the generated one. *)
Theorem trained_run_trace (num_nodes num_epochs : nat) (R : randomness) :
  edges (generate_uav_network num_nodes 1000 (rand R) (uniform R)).2 ≠ [] →
  0 < num_epochs →
  sampling_status
    (build_adjacency num_nodes (map (scale 1000) (rand R))) num_nodes
    (length (edge_index_of num_nodes
               (build_adjacency num_nodes (map (scale 1000) (rand R)))))
    (seq 0 num_epochs) (draws R) = Ok →
  ∃ evs losses final_loss e,
    train_embeddings T num_nodes num_epochs R
    = (Print "=== Start GraphSAGE training ===" :: evs
         ++ [ForwardPass false; PrintFinalLoss final_loss; PlotLosses losses;
             SaveFig "training_loss.png"],
       Return (PyTuple
         [PyArray e; PyVector (map (λ z, (z * 0.1)%float) (randn R));
          PyGraph (generate_uav_network num_nodes 1000 (rand R)
                     (uniform R)).2]))
    ∧ Forall epoch_event evs
    ∧ optimizer_steps evs = num_epochs
    ∧ length losses = num_epochs
    ∧ last losses = Some final_loss.
Proof.
  intros Hedges Hne Hstatus. apply edges_edge_index in Hedges.
  set (adjacency := build_adjacency num_nodes (map (scale 1000) (rand R))) in *.
  set (edge_index := edge_index_of num_nodes adjacency) in *.
  set (st0 := TrainState (model0 R) (generator0 R) (draws R) []
                [Print "=== Start GraphSAGE training ==="]).
  pose proof (training_cycle_spec T num_nodes adjacency
                (fit_transform T (uniform R)) edge_index (seq 0 num_epochs) st0)
    as (Hs & evs & Htr & Hev & Hok). cbv zeta in Hs, Htr, Hok.
  destruct (training_cycle T num_nodes adjacency (fit_transform T (uniform R))
              edge_index (seq 0 num_epochs) st0) as [st s] eqn:Hcycle.
  cbn [fst snd st_draws st_trace st_losses st0] in Hs, Htr, Hok.
  rewrite Hstatus in Hs. subst s.
  destruct (Hok eq_refl) as (Hsteps & ls & Hls & Hlen).
  rewrite length_seq in Hsteps, Hlen. simpl in Hls.
  rewrite (train_embeddings_trained num_nodes num_epochs R st Hedges Hcycle).
  destruct (last (st_losses st)) as [final_loss|] eqn:Hlast.
  - subst ls. exists evs, (st_losses st), final_loss. eexists. rewrite Htr.
    split_and!; [|done|done|done|done].
    simpl. by rewrite <- !app_assoc.
  - apply last_None in Hlast. rewrite Hlast in Hls. subst ls.
    simpl in Hlen. lia.
Qed.

(** X6. In a run in which every epoch gets its negative samples, a progress
    line is printed for the epochs 10, 20, 30, ... up to [num_epochs], in
    this order, and for no other: [num_epochs / 10] lines in all. *)
Theorem progress_every_tenth_epoch (num_nodes num_epochs : nat) (R : randomness) :
  edges (generate_uav_network num_nodes 1000 (rand R) (uniform R)).2 ≠ [] →
  sampling_status
    (build_adjacency num_nodes (map (scale 1000) (rand R))) num_nodes
    (length (edge_index_of num_nodes
               (build_adjacency num_nodes (map (scale 1000) (rand R)))))
    (seq 0 num_epochs) (draws R) = Ok →
  printed_epochs (train_embeddings T num_nodes num_epochs R).1
  = map (λ k, 10 * (k + 1)) (seq 0 (num_epochs `div` 10)).
Proof.
  intros Hedges Hstatus. apply edges_edge_index in Hedges.
  set (adjacency := build_adjacency num_nodes (map (scale 1000) (rand R))) in *.
  set (edge_index := edge_index_of num_nodes adjacency) in *.
  set (st0 := TrainState (model0 R) (generator0 R) (draws R) []
                [Print "=== Start GraphSAGE training ==="]).
  pose proof (training_cycle_spec T num_nodes adjacency
                (fit_transform T (uniform R)) edge_index (seq 0 num_epochs) st0)
    as (Hs & _).
  pose proof (training_cycle_progress num_nodes adjacency
                (fit_transform T (uniform R)) edge_index (seq 0 num_epochs) st0)
    as Hprog. cbv zeta in Hs, Hprog.
  destruct (training_cycle T num_nodes adjacency (fit_transform T (uniform R))
              edge_index (seq 0 num_epochs) st0) as [st s] eqn:Hcycle.
  cbn [fst snd st_draws st_trace st0] in Hs, Hprog.
  rewrite Hstatus in Hs. subst s. specialize (Hprog eq_refl).
  rewrite (train_embeddings_trained num_nodes num_epochs R st Hedges Hcycle).
  rewrite <- progress_seq.
  destruct (last (st_losses st)); cbn [fst];
    rewrite !printed_epochs_app, Hprog; simpl; by rewrite ?app_nil_r.
Qed.

(** X7. The entry point exports the embeddings exactly when the generated
    graph has an edge and every one of the 50 epochs gets its negative
    samples; the export then comes after all 50 optimizer steps. The entry
    point itself never raises. *)
Theorem main_exports_only_after_full_training (R : randomness) :
  let adjacency := build_adjacency 30 (map (scale 1000) (rand R)) in
  let edge_index := edge_index_of 30 adjacency in
  ((∃ e b, SaveEmbeddings e b ∈ (main T R).1)
   ↔ edge_index ≠ []
     ∧ sampling_status adjacency 30 (length edge_index) (seq 0 50) (draws R)
       = Ok)
  ∧ ((∃ e b, SaveEmbeddings e b ∈ (main T R).1) →
     optimizer_steps (main T R).1 = 50 ∧ (main T R).2 = Return ())
  ∧ (∀ e, (main T R).2 ≠ Raise e).
Proof.
  intros adjacency edge_index.
  pose proof (train_embeddings_outcome T 30 50 R) as [Hall Hout].
  cbv zeta in Hall, Hout. fold adjacency in Hout. fold edge_index in Hout.
  unfold main.
  destruct (train_embeddings T 30 50 R) as [trace result].
  cbn [fst snd] in *.
  assert (∀ e b, SaveEmbeddings e b ∉ trace) as Hnone.
  { intros e b Hin. rewrite Forall_forall in Hall.
    destruct (Hall _ Hin) as [_ Hne]. by apply (Hne e b). }
  assert (∀ e b, SaveEmbeddings e b
                 ∉ trace ++ [Print "Error during training"]) as Hhandler.
  { intros e b [Hin|Hin]%elem_of_app; [by apply (Hnone e b)|].
    apply list_elem_of_singleton in Hin. done. }
  destruct (decide (length edge_index = 0)) as [Hnil|Hedges].
  { simplify_eq/=. split_and!; [|intros (e & b & Hin)|done].
    - split; [intros (e & b & Hin)|intros [Hne _]].
      + by apply Hhandler in Hin.
      + by destruct edge_index.
    - by apply Hhandler in Hin. }
  assert (edge_index ≠ []) as Hedges' by (by intros Heq; rewrite Heq in Hedges).
  destruct (sampling_status adjacency 30 (length edge_index) (seq 0 50)
              (draws R)) as [|err|].
  - destruct Hout as [Hsteps (e & b & g & ->)]. cbn [fst snd unpack3 iterate
      is_none negb].
    split_and!; [|intros _|done].
    + split; [done|]. intros _. exists (PyArray e), (PyVector b).
      apply elem_of_app. right. by left.
    + split; [|done]. rewrite optimizer_steps_app. simpl. lia.
  - subst result. cbn [fst snd]. split_and!; [|intros (e & b & Hin)|done].
    + split; [intros (e & b & Hin)|intros [_ ?]; done].
      by apply Hhandler in Hin.
    + by apply Hhandler in Hin.
  - subst result. cbn [fst snd]. split_and!; [|intros (e & b & Hin)|done].
    + split; [intros (e & b & Hin)|intros [_ ?]; done].
      by apply Hnone in Hin.
    + by apply Hnone in Hin.
Qed.

End AnyTorch.

Lemma zero_epochs_witness :
  edges (generate_uav_network 3 1000 (rand run3) (uniform run3)).2 ≠ []
  ∧ train_embeddings nan_torch 3 0 run3
    = ([Print "=== Start GraphSAGE training ==="; ForwardPass false],
       Raise (IndexError "list index out of range")).
Proof.
  assert (edges (generate_uav_network 3 1000 (rand run3) (uniform run3)).2 ≠ [])
    as Hedges by (vm_compute; discriminate).
  split; [exact Hedges|].
  exact (zero_epochs_raise_index_error nan_torch 3 run3 Hedges).
Defined.

Lemma complete_graph_witness :
  2 ≤ 2 ∧ 0 < 5
  ∧ (∀ i j, i < 2 → j < 2 → i ≠ j →
       get2 (generate_uav_network 2 1000 (rand near2) (uniform near2)).1.1.2 i j
       = 1%Z)
  ∧ (train_embeddings nan_torch 2 5 near2).2 = Running.
Proof.
  assert (2 ≤ 2) as Hn by lia. assert (0 < 5) as Hne by lia.
  assert (∀ i j, i < 2 → j < 2 → i ≠ j →
            get2 (generate_uav_network 2 1000 (rand near2)
                    (uniform near2)).1.1.2 i j = 1%Z) as Hall.
  { intros i j Hi Hj Hij.
    destruct i as [|[|i]], j as [|[|j]]; try lia; vm_compute; reflexivity. }
  split; [exact Hn|]. split; [exact Hne|]. split; [exact Hall|].
  exact (complete_graph_training_never_returns nan_torch 2 5 near2 Hn Hne Hall).
Defined.

Lemma trained_run_witness :
  edges (generate_uav_network 3 1000 (rand run10) (uniform run10)).2 ≠ []
  ∧ 0 < 10
  ∧ sampling_status
      (build_adjacency 3 (map (scale 1000) (rand run10))) 3
      (length (edge_index_of 3
                 (build_adjacency 3 (map (scale 1000) (rand run10)))))
      (seq 0 10) (draws run10) = Ok
  ∧ ∃ evs losses final_loss e,
      train_embeddings nan_torch 3 10 run10
      = (Print "=== Start GraphSAGE training ===" :: evs
           ++ [ForwardPass false; PrintFinalLoss final_loss; PlotLosses losses;
               SaveFig "training_loss.png"],
         Return (PyTuple
           [PyArray e; PyVector (map (λ z, (z * 0.1)%float) (randn run10));
            PyGraph (generate_uav_network 3 1000 (rand run10)
                       (uniform run10)).2]))
      ∧ Forall epoch_event evs
      ∧ optimizer_steps evs = 10
      ∧ length losses = 10
      ∧ last losses = Some final_loss.
Proof.
  assert (edges (generate_uav_network 3 1000 (rand run10) (uniform run10)).2
          ≠ []) as Hedges by (vm_compute; discriminate).
  assert (0 < 10) as Hne by lia.
  assert (sampling_status
            (build_adjacency 3 (map (scale 1000) (rand run10))) 3
            (length (edge_index_of 3
                       (build_adjacency 3 (map (scale 1000) (rand run10)))))
            (seq 0 10) (draws run10) = Ok) as Hok by (vm_compute; reflexivity).
  split; [exact Hedges|]. split; [exact Hne|]. split; [exact Hok|].
  exact (trained_run_trace nan_torch 3 10 run10 Hedges Hne Hok).
Defined.

Lemma progress_witness :
  edges (generate_uav_network 3 1000 (rand run10) (uniform run10)).2 ≠ []
  ∧ sampling_status
      (build_adjacency 3 (map (scale 1000) (rand run10))) 3
      (length (edge_index_of 3
                 (build_adjacency 3 (map (scale 1000) (rand run10)))))
      (seq 0 10) (draws run10) = Ok
  ∧ printed_epochs (train_embeddings nan_torch 3 10 run10).1
    = map (λ k, 10 * (k + 1)) (seq 0 (10 `div` 10)).
Proof.
  assert (edges (generate_uav_network 3 1000 (rand run10) (uniform run10)).2
          ≠ []) as Hedges by (vm_compute; discriminate).
  assert (sampling_status
            (build_adjacency 3 (map (scale 1000) (rand run10))) 3
            (length (edge_index_of 3
                       (build_adjacency 3 (map (scale 1000) (rand run10)))))
            (seq 0 10) (draws run10) = Ok) as Hok by (vm_compute; reflexivity).
  split; [exact Hedges|]. split; [exact Hok|].
  exact (progress_every_tenth_epoch nan_torch 3 10 run10 Hedges Hok).
Defined.

Example progress_run10 :
  printed_epochs (train_embeddings nan_torch 3 10 run10).1 = [10].
Proof. vm_compute. reflexivity. Qed.

End Runs.

(** ** The exporter: [save_embeddings] *)

From Stdlib Require Import DecimalString.

Module Exporter.

(** A two-dimensional numpy array: its rows, and its number of columns,
    which an array has even when it has no row. *)
Record ndarray := NDArray {
  ncols : nat;
  rows : list (list float)
}.

(** Column labels of a data frame: integers by default, strings once
    named. *)
Inductive label :=
  | LInt (n : nat)
  | LStr (s : string).

#[export] Instance label_eq_dec : EqDecision label.
Proof.
  intros c1 c2. unfold Decision.
  decide equality; [apply Nat.eq_dec|apply string_dec].
Defined.

Record dataframe := DataFrame {
  columns : list label;
  index : list nat;
  index_name : option string;
  data : list (list float)
}.

(** [pd.DataFrame(embeddings)]: a range index and integer column labels. *)
Definition of_array (a : ndarray) : dataframe :=
  {| columns := LInt <$> seq 0 (ncols a);
     index := seq 0 (length (rows a));
     index_name := None;
     data := rows a |}.

(** [df.columns = names]; pandas raises [ValueError] unless there is one
    name per column. *)
Definition set_columns (df : dataframe) (names : list label)
    : outcome dataframe :=
  if decide (length names = length (columns df))
  then Return (DataFrame names (index df) (index_name df) (data df))
  else Raise (ValueError "Length mismatch").

(** What pandas does to a frame before a column is set: a frame without
    rows takes the range index of a non-empty array of values, its columns
    being filled with NaN; the name of the index is kept. *)
Definition ensure_valid_index (df : dataframe) (values : list float)
    : dataframe :=
  match index df, values with
  | [], _ :: _ =>
      DataFrame (columns df) (seq 0 (length values)) (index_name df)
                (replicate (length values)
                           (replicate (length (columns df)) nan))
  | _, _ => df
  end.

(** [df[name] = values] for an array of values: after the step above,
    pandas raises [ValueError] unless there is one value per row. A column
    of that name is replaced, a new name adds a column at the end. *)
Definition set_item (df : dataframe) (name : label) (values : list float)
    : outcome dataframe :=
  let df := ensure_valid_index df values in
  if decide (length values = length (index df)) then
    match list_find (λ c, c = name) (columns df) with
    | Some (k, _) =>
        Return (DataFrame (columns df) (index df) (index_name df)
                  (zip_with (λ row v, <[k := v]> row) (data df) values))
    | None =>
        Return (DataFrame (columns df ++ [name]) (index df) (index_name df)
                  (zip_with (λ row v, row ++ [v]) (data df) values))
    end
  else Raise (ValueError "Length of values does not match length of index").

Definition str (n : nat) : string := NilEmpty.string_of_uint (Nat.to_uint n).

Definition label_text (c : label) : string :=
  match c with LInt n => str n | LStr s => s end.

(** The file [df.to_csv] writes, cell by cell: the header line, made of the
    name of the index and the column labels, and one line per row, made of
    its index and its values. How a float is printed is left out. *)
Record csv := Csv {
  header : list string;
  lines : list (nat * list float)
}.

Definition to_csv (df : dataframe) : csv :=
  {| header := default ""%string (index_name df) :: (label_text <$> columns df);
     lines := zip (index df) (data df) |}.

(** [save_embeddings(embeddings, biases, filename)]: the path it returns
    and the file it writes there. *)
Definition save_embeddings (embeddings : ndarray) (biases : list float)
    (filename : string) : outcome (string * csv) :=
  let df := of_array embeddings in
  obind (set_columns df ((λ i, LStr (String.append "h" (str i))) <$> seq 0 16))
    (λ df,
  obind (set_item df (LStr "bias") biases)
    (λ df,
  let df := DataFrame (columns df) (index df) (Some "node_id"%string)
                      (data df) in
  let filepath := String.append "outputs/" filename in
  Return (filepath, to_csv df))).

Lemma find_bias :
  list_find (λ c, c = LStr "bias")
            ((λ i, LStr (String.append "h" (str i))) <$> seq 0 16) = None.
Proof. vm_compute. reflexivity. Qed.

(** X8. [save_embeddings] raises [ValueError] when the array does not have
    16 columns, or has rows but not one bias per row. Otherwise it returns
    the path [outputs/<filename>] and writes a file with the header
    [node_id, h0, ..., h15, bias]. With one bias per row the file has one
    line per node: line [i] carries the index [i], then row [i] of the
    embeddings, then bias [i]. On an array without rows the file has one
    line per bias: line [i] carries the index [i], then 16 NaN, then bias
    [i]. *)
Theorem save_embeddings_table
    (embeddings : ndarray) (biases : list float) (filename : string) :
  (ncols embeddings = 16 ∧ length biases = length (rows embeddings) →
   ∃ file,
     save_embeddings embeddings biases filename
     = Return (String.append "outputs/" filename, file)
     ∧ header file
       = ["node_id"; "h0"; "h1"; "h2"; "h3"; "h4"; "h5"; "h6"; "h7"; "h8";
          "h9"; "h10"; "h11"; "h12"; "h13"; "h14"; "h15"; "bias"]%string
     ∧ length (lines file) = length (rows embeddings)
     ∧ ∀ i row b,
         rows embeddings !! i = Some row → biases !! i = Some b →
         lines file !! i = Some (i, row ++ [b]))
  ∧ (ncols embeddings = 16 ∧ rows embeddings = [] →
     ∃ file,
       save_embeddings embeddings biases filename
       = Return (String.append "outputs/" filename, file)
       ∧ header file
         = ["node_id"; "h0"; "h1"; "h2"; "h3"; "h4"; "h5"; "h6"; "h7"; "h8";
            "h9"; "h10"; "h11"; "h12"; "h13"; "h14"; "h15"; "bias"]%string
       ∧ length (lines file) = length biases
       ∧ ∀ i b,
           biases !! i = Some b →
           lines file !! i = Some (i, replicate 16 nan ++ [b]))
  ∧ (ncols embeddings ≠ 16
     ∨ (rows embeddings ≠ [] ∧ length biases ≠ length (rows embeddings)) →
     ∃ msg, save_embeddings embeddings biases filename
            = Raise (ValueError msg)).
Proof.
  unfold save_embeddings, set_columns, of_array.
  cbn [columns index index_name data].
  rewrite !length_fmap, !length_seq. split_and!.
  - intros [Hcols Hlen]. rewrite Hcols, decide_True by done.
    cbn [obind]. unfold set_item, ensure_valid_index.
    cbn [columns index index_name data].
    assert (match seq 0 (length (rows embeddings)), biases with
            | [], _ :: _ =>
                DataFrame ((λ i, LStr (String.append "h" (str i))) <$> seq 0 16)
                  (seq 0 (length biases)) None
                  (replicate (length biases)
                     (replicate
                        (length ((λ i, LStr (String.append "h" (str i)))
                                   <$> seq 0 16)) nan))
            | _, _ =>
                DataFrame ((λ i, LStr (String.append "h" (str i))) <$> seq 0 16)
                  (seq 0 (length (rows embeddings))) None (rows embeddings)
            end
            = DataFrame ((λ i, LStr (String.append "h" (str i))) <$> seq 0 16)
                (seq 0 (length (rows embeddings))) None (rows embeddings))
      as ->.
    { destruct (rows embeddings) as [|row rs]; [|done].
      by destruct biases. }
    cbn [columns index index_name data].
    rewrite decide_True by (by rewrite length_seq).
    rewrite find_bias. cbn [obind columns index index_name data].
    eexists. split; [reflexivity|].
    cbn [to_csv header lines columns index index_name data].
    split_and!.
    + vm_compute. reflexivity.
    + rewrite length_zip, length_seq, length_zip_with. lia.
    + intros i row b Hrow Hb.
      apply lookup_zip_with_Some. exists i, (row ++ [b]).
      split_and!; [done| |].
      * apply lookup_seq. split; [done|]. by eapply lookup_lt_Some.
      * apply lookup_zip_with_Some. by exists row, b.
  - intros [Hcols Hrows]. rewrite Hcols, Hrows, decide_True by done.
    cbn [obind]. unfold set_item, ensure_valid_index.
    cbn [columns index index_name data].
    change (seq 0 (length (@nil (list float)))) with (@nil nat).
    destruct biases as [|b0 bs].
    + cbn [columns index index_name data length].
      rewrite decide_True by done. rewrite find_bias.
      cbn [obind columns index index_name data].
      eexists. split; [reflexivity|].
      split_and!; [vm_compute; reflexivity|done|]. intros i b Hb. by inv Hb.
    + cbn [columns index index_name data].
      rewrite decide_True by (by rewrite length_seq).
      rewrite find_bias. cbn [obind columns index index_name data].
      eexists. split; [reflexivity|].
      cbn [to_csv header lines columns index index_name data].
      rewrite length_fmap, length_seq.
      split_and!.
      * vm_compute. reflexivity.
      * rewrite length_zip, length_seq, length_zip_with, length_replicate. lia.
      * intros i b Hb. apply lookup_zip_with_Some.
        exists i, (replicate 16 nan ++ [b]). split_and!; [done| |].
        -- apply lookup_seq. split; [done|]. by eapply lookup_lt_Some.
        -- apply lookup_zip_with_Some. exists (replicate 16 nan), b.
           split_and!; [done| |done].
           apply lookup_replicate_2. by eapply lookup_lt_Some.
  - intros Hbad. destruct (decide (16 = ncols embeddings)) as [Hcols|Hcols];
      cbn [obind]; [|by eexists].
    destruct Hbad as [Hbad|[Hrows Hlen]]; [congruence|].
    unfold set_item, ensure_valid_index.
    cbn [columns index index_name data].
    destruct (rows embeddings) as [|row rs]; [done|].
    change (seq 0 (length (row :: rs))) with (0 :: seq 1 (length rs)).
    cbn [columns index index_name data].
    rewrite decide_False; [by eexists|].
    simpl in *. rewrite length_seq. lia.
Qed.

(** An array without rows and one bias: a file of one line. *)
Example save_embeddings_no_rows :
  ∃ file,
    save_embeddings (NDArray 16 []) [0.5%float] "emb_16.csv"
    = Return ("outputs/emb_16.csv"%string, file)
    ∧ lines file = [(0, replicate 16 nan ++ [0.5%float])].
Proof. eexists. split; vm_compute; reflexivity. Qed.

(** An array of the right shape with too few biases is refused. *)
Example save_embeddings_short_biases :
  save_embeddings (NDArray 16 [replicate 16 1%float; replicate 16 2%float])
    [0.5%float] "emb_16.csv"
  = Raise (ValueError "Length of values does not match length of index").
Proof. vm_compute. reflexivity. Qed.

End Exporter.
